(** * MeTA: building the perfect-hash language model from an ARPA file

    A shallow embedding of [src/lm/mph_language_model.cpp]: the ARPA
    stream reader [read_from_arpa], the order transition controller
    [ngram_handler] and the pipeline driver [build_from_arpa], followed
    by the properties of the build pipeline.

    Conventions.
    - [uint64_t] and [std::size_t] values are [N] with the wrap-around
      modulo [2^64] written out ([U64.add], [U64.sub]).
    - A [std::string] is a [string]; the members used by the source
      ([find_first_of], [substr], [find(..) == 0], [operator[]]) are in
      [Cpp], with [npos] and [std::out_of_range] as the standard has them.
    - A C++ member function is a computation in the monad [M]: it reads
      and updates the object, and ends normally ([Done]), with an
      exception ([Thrown]) or in a fault ([Faulted]: a failed [assert],
      the dereference of a null [unique_ptr], an index past the end of a
      [std::vector]).  The object as it was at that moment is kept in
      every case. *)

From Stdlib Require Import NArith List String Ascii Bool Lia.
From Stdlib Require Import DecimalString DecimalN DecimalPos Sorted.
From Stdlib Require Import ZArith QArith_base Qreduction.
Import ListNotations.

Local Open Scope string_scope.
Local Open Scope N_scope.

(** ** Machine integers *)

Module U64.

Definition modulus : N := 2 ^ 64.

Definition wrap (x : N) : N := x mod modulus.

Definition add (x y : N) : N := wrap (x + y).

(** [x - y] on unsigned 64-bit operands. *)
Definition sub (x y : N) : N := wrap (x + modulus - wrap y).

(** [std::string::npos], the largest [size_t]. *)
Definition npos : N := modulus - 1.

End U64.

Arguments U64.wrap : simpl never.
Arguments U64.add : simpl never.
Arguments U64.sub : simpl never.

(** ** The parts of the C++ standard library the source calls *)

Inductive exn : Type :=
| runtime_error (what : string)
| invalid_argument (what : string)
| out_of_range (what : string).

Inductive result (A : Type) : Type :=
| Value (a : A)
| Raise (e : exn).

Arguments Value {A} a.
Arguments Raise {A} e.

Module Cpp.

Definition size (s : string) : N := N.of_nat (String.length s).

Fixpoint drop (n : nat) (s : string) : string :=
  match n, s with
  | O, _ => s
  | S _, EmptyString => EmptyString
  | S n', String _ s' => drop n' s'
  end.

Fixpoint take (n : nat) (s : string) : string :=
  match n, s with
  | O, _ => EmptyString
  | S _, EmptyString => EmptyString
  | S n', String c s' => String c (take n' s')
  end.

(** Offset of the first character of [s] that occurs in [chars]. *)
Fixpoint first_of (chars : list ascii) (s : string) : option nat :=
  match s with
  | EmptyString => None
  | String c s' =>
      if existsb (Ascii.eqb c) chars then Some O
      else option_map S (first_of chars s')
  end.

(** [s.find_first_of(chars, pos)]. *)
Definition find_first_of (s : string) (chars : string) (pos : N) : N :=
  if size s <=? pos then U64.npos
  else match first_of (list_ascii_of_string chars) (drop (N.to_nat pos) s) with
       | Some i => pos + N.of_nat i
       | None => U64.npos
       end.

(** [s.substr(pos, count)]: throws when [pos > size()], else the
    characters from [pos], at most [count] of them. *)
Definition substr (s : string) (pos count : N) : result string :=
  if size s <? pos then Raise (out_of_range "basic_string::substr")
  else Value (take (N.to_nat (N.min count (size s - pos))) (drop (N.to_nat pos) s)).

(** [s.find(needle) == 0]: the first occurrence of [needle] is at the
    start of [s], that is, [needle] is a prefix of [s]. *)
Definition find_is_0 (s needle : string) : bool := String.prefix needle s.

(** [s[i]]; the standard gives the null character at [i == size()]. *)
Definition at_ (s : string) (i : nat) : ascii :=
  match String.get i s with
  | Some c => c
  | None => zero
  end.

(** [std::to_string] on an unsigned value. *)
Definition to_string (n : N) : string := NilZero.string_of_uint (N.to_uint n).

(** *** [std::stoul], base 10 *)

Definition isspace (c : ascii) : bool :=
  let n := N_of_ascii c in
  (n =? 32) || ((9 <=? n) && (n <=? 13)).

Fixpoint skip_space (s : string) : string :=
  match s with
  | String c s' => if isspace c then skip_space s' else s
  | EmptyString => s
  end.

Definition digit (c : ascii) : option N :=
  let n := N_of_ascii c in
  if (48 <=? n) && (n <=? 57) then Some (n - 48) else None.

(** Value of the leading run of decimal digits, and how many there are. *)
Fixpoint digits (acc : N) (seen : nat) (s : string) : N * nat :=
  match s with
  | String c s' =>
      match digit c with
      | Some d => digits (10 * acc + d) (S seen) s'
      | None => (acc, seen)
      end
  | EmptyString => (acc, seen)
  end.

Definition stoul (s : string) : result N :=
  let s1 := skip_space s in
  let '(negative, s2) :=
    match s1 with
    | String "-" r => (true, r)
    | String "+" r => (false, r)
    | _ => (false, s1)
    end in
  let '(v, seen) := digits 0 O s2 in
  match seen with
  | O => Raise (invalid_argument "stoul")
  | S _ =>
      if U64.modulus <=? v then Raise (out_of_range "stoul")
      else Value (if negative then U64.sub 0 v else v)
  end.

End Cpp.

(** ** Outcomes of a member function, and the monad of the embedding *)

Inductive fault : Type :=
| assert_failed (expr : string)
| null_dereference (pointer : string)
| vector_out_of_bounds (index : N).

Inductive outcome (S A : Type) : Type :=
| Done (a : A) (s : S)
| Thrown (e : exn) (s : S)
| Faulted (f : fault) (s : S).

Arguments Done {S A} a s.
Arguments Thrown {S A} e s.
Arguments Faulted {S A} f s.

Definition M (S A : Type) : Type := S -> outcome S A.

Definition ret {S A} (a : A) : M S A := fun s => Done a s.

Definition bind {S A B} (m : M S A) (k : A -> M S B) : M S B :=
  fun s =>
    match m s with
    | Done a s' => k a s'
    | Thrown e s' => Thrown e s'
    | Faulted f s' => Faulted f s'
    end.

Definition get {S} : M S S := fun s => Done s s.
Definition modify {S} (f : S -> S) : M S unit := fun s => Done tt (f s).
Definition throw {S A} (e : exn) : M S A := fun s => Thrown e s.
Definition crash {S A} (f : fault) : M S A := fun s => Faulted f s.

(** A value of the standard library that may be an exception instead. *)
Definition lift {S A} (r : result A) : M S A :=
  match r with
  | Value a => ret a
  | Raise e => throw e
  end.

Declare Scope cpp_scope.
Delimit Scope cpp_scope with cpp.
Notation "x <- m ;; k" := (bind m (fun x => k))
  (at level 61, m at next level, right associativity) : cpp_scope.
Notation "m ;; k" := (bind m (fun _ => k))
  (at level 61, right associativity) : cpp_scope.

(** The state an outcome ends in. *)
Definition final {S A} (o : outcome S A) : S :=
  match o with
  | Done _ s | Thrown _ s | Faulted _ s => s
  end.

Definition is_done {S A} (o : outcome S A) : bool :=
  match o with
  | Done _ _ => true
  | _ => false
  end.

(** ** What the build is compiled and run against

    [float] ([FloatModel]) and [std::stof] belong to the C++
    implementation, the slot that the minimal perfect hash gives a key
    belongs to the map library, and [NDEBUG] decides whether [assert] is
    compiled in.  The embedding takes them as given. *)

Class FloatModel : Type := {
  float : Type
}.

Class Platform {FM : FloatModel} : Type := {
  (** [std::stof]: the value, or the exception it throws. *)
  stof : string -> result float;
  (** The literal [0.0] as a [float]. *)
  float_zero : float;
  (** The dense slot of a key among the keys a map was built from. *)
  mph_slot : list string -> string -> N;
  (** [true] when the build defines [NDEBUG]: [assert] does nothing. *)
  NDEBUG : bool
}.

Definition TAB : string := String "009" EmptyString.

Section Model.

Context {FM : FloatModel} {P : Platform}.

(** *** The map and its builder

    Modelled from the spec: [meta/lm/ngram_map.h] ([ngram_map],
    [ngram_map_builder], [prob_backoff]) is not among the sources.  A
    builder is created from [{prefix, num_keys}], takes key/value pairs
    and is finalized by [write]; the map opened from the same prefix
    answers a lookup with the value that was inserted and reports a key
    that was never inserted as absent. *)

Record prob_backoff : Type := { prob : float; backoff : float }.

Record options_type : Type := { prefix : string; num_keys : N }.

Record ngram_map_builder (K V : Type) : Type := {
  options : options_type;
  inserted : list (K * V)
}.

Arguments options {K V} _.
Arguments inserted {K V} _.

Definition make_builder {K V} (o : options_type) : ngram_map_builder K V :=
  {| options := o; inserted := [] |}.

(** [builder(key, value)] *)
Definition insert {K V} (b : ngram_map_builder K V) (key : K) (value : V)
  : ngram_map_builder K V :=
  {| options := options b; inserted := inserted b ++ [(key, value)] |}.

Record ngram_map (K V : Type) : Type := { table : list (K * V) }.

Arguments table {K V} _.

(** The map that [write] leaves on disk. *)
Definition write {K V} (b : ngram_map_builder K V) : ngram_map K V :=
  {| table := inserted b |}.

Definition lookup {K V} (eqb : K -> K -> bool) (m : ngram_map K V) (key : K)
  : option V :=
  option_map snd (find (fun kv => eqb (fst kv) key) (table m)).

(** [ngram_map<std::string>::index]: the id of a word, if it is a key. *)
Definition index {V} (m : ngram_map string V) (key : string) : option N :=
  if existsb (String.eqb key) (map fst (table m))
  then Some (mph_slot (map fst (table m)) key)
  else None.

Definition unigram_builder_type : Type := ngram_map_builder string prob_backoff.
Definition middle_builder_type : Type := ngram_map_builder (list N) prob_backoff.
Definition last_builder_type : Type := ngram_map_builder (list N) float.

(** Modelled from the spec: [util::for_each_token] of
    [meta/util/algorithm.h] is not among the sources.  It hands the
    pieces of the text between delimiter characters to the callback, in
    order, together with what the callback has gathered so far ([acc],
    the variables its closure captures by reference); the callback of
    the handler skips the empty pieces. *)
Fixpoint pieces (delims : list ascii) (piece : string) (s : string) : list string :=
  match s with
  | EmptyString => [piece]
  | String c s' =>
      if existsb (Ascii.eqb c) delims then piece :: pieces delims EmptyString s'
      else pieces delims (piece ++ String c EmptyString) s'
  end.

Fixpoint for_each {S A} (tokens : list string) (fn : string -> A -> M S A)
  (acc : A) : M S A :=
  match tokens with
  | [] => ret acc
  | t :: rest => (acc' <- fn t acc ;; for_each rest fn acc')%cpp
  end.

Definition for_each_token {S A} (text delims : string)
  (fn : string -> A -> M S A) (acc : A) : M S A :=
  for_each (pieces (list_ascii_of_string delims) EmptyString text) fn acc.

(** *** What the build does to the world outside the handler

    The handler object is followed by the list of the effects performed
    so far, in program order: the calls into [filesystem::], the builders
    constructed, written and destroyed, the map opened. *)

Inductive builder_kind : Type := unigram | middle | last.

Inductive stored : Type :=
| unigram_table (m : ngram_map string prob_backoff)
| middle_table (m : ngram_map (list N) prob_backoff)
| last_table (m : ngram_map (list N) float).

Inductive effect : Type :=
| remove_all (path : string)
| make_directory (path : string)
| builder_created (k : builder_kind) (o : options_type)
| builder_written (k : builder_kind) (o : options_type) (t : stored)
| builder_destroyed (k : builder_kind) (o : options_type)
| map_opened (path : string).

(** *** The order transition controller: [class ngram_handler] *)

Record ngram_handler : Type := {
  prefix_ : string;
  order_ : N;
  observed_ : N;
  counts_ : list N;
  unigram_builder_ : option unigram_builder_type;
  unigrams_ : option (ngram_map string prob_backoff);
  middle_builder_ : option middle_builder_type;
  last_builder_ : option last_builder_type;
  (** not a member: the effects so far *)
  effects : list effect
}.

Definition set_order_ (v : N) (h : ngram_handler) : ngram_handler :=
  {| prefix_ := prefix_ h; order_ := v; observed_ := observed_ h;
     counts_ := counts_ h; unigram_builder_ := unigram_builder_ h;
     unigrams_ := unigrams_ h; middle_builder_ := middle_builder_ h;
     last_builder_ := last_builder_ h; effects := effects h |}.

Definition set_observed_ (v : N) (h : ngram_handler) : ngram_handler :=
  {| prefix_ := prefix_ h; order_ := order_ h; observed_ := v;
     counts_ := counts_ h; unigram_builder_ := unigram_builder_ h;
     unigrams_ := unigrams_ h; middle_builder_ := middle_builder_ h;
     last_builder_ := last_builder_ h; effects := effects h |}.

Definition set_counts_ (v : list N) (h : ngram_handler) : ngram_handler :=
  {| prefix_ := prefix_ h; order_ := order_ h; observed_ := observed_ h;
     counts_ := v; unigram_builder_ := unigram_builder_ h;
     unigrams_ := unigrams_ h; middle_builder_ := middle_builder_ h;
     last_builder_ := last_builder_ h; effects := effects h |}.

Definition set_unigram_builder_ (v : option unigram_builder_type)
  (h : ngram_handler) : ngram_handler :=
  {| prefix_ := prefix_ h; order_ := order_ h; observed_ := observed_ h;
     counts_ := counts_ h; unigram_builder_ := v;
     unigrams_ := unigrams_ h; middle_builder_ := middle_builder_ h;
     last_builder_ := last_builder_ h; effects := effects h |}.

Definition set_unigrams_ (v : option (ngram_map string prob_backoff))
  (h : ngram_handler) : ngram_handler :=
  {| prefix_ := prefix_ h; order_ := order_ h; observed_ := observed_ h;
     counts_ := counts_ h; unigram_builder_ := unigram_builder_ h;
     unigrams_ := v; middle_builder_ := middle_builder_ h;
     last_builder_ := last_builder_ h; effects := effects h |}.

Definition set_middle_builder_ (v : option middle_builder_type)
  (h : ngram_handler) : ngram_handler :=
  {| prefix_ := prefix_ h; order_ := order_ h; observed_ := observed_ h;
     counts_ := counts_ h; unigram_builder_ := unigram_builder_ h;
     unigrams_ := unigrams_ h; middle_builder_ := v;
     last_builder_ := last_builder_ h; effects := effects h |}.

Definition set_last_builder_ (v : option last_builder_type)
  (h : ngram_handler) : ngram_handler :=
  {| prefix_ := prefix_ h; order_ := order_ h; observed_ := observed_ h;
     counts_ := counts_ h; unigram_builder_ := unigram_builder_ h;
     unigrams_ := unigrams_ h; middle_builder_ := middle_builder_ h;
     last_builder_ := v; effects := effects h |}.

Definition perform (e : effect) : M ngram_handler unit :=
  modify (fun h =>
    {| prefix_ := prefix_ h; order_ := order_ h; observed_ := observed_ h;
       counts_ := counts_ h; unigram_builder_ := unigram_builder_ h;
       unigrams_ := unigrams_ h; middle_builder_ := middle_builder_ h;
       last_builder_ := last_builder_ h; effects := effects h ++ [e] |}).

(** [ngram_handler handler{prefix}] *)
Definition construct (prefix : string) (world : list effect) : ngram_handler :=
  {| prefix_ := prefix; order_ := 0; observed_ := 0; counts_ := [];
     unigram_builder_ := None; unigrams_ := None; middle_builder_ := None;
     last_builder_ := None; effects := world |}.

(** [assert(c)] *)
Definition assert {S} (c : bool) (expr : string) : M S unit :=
  if c || NDEBUG then ret tt else crash (assert_failed expr).

(** [*p] and [p->] on a [unique_ptr]. *)
Definition deref {S A} (p : option A) (name : string) : M S A :=
  match p with
  | Some a => ret a
  | None => crash (null_dereference name)
  end.

(** [v[i]] on a [std::vector]. *)
Definition at_index {S} (v : list N) (i : N) : M S N :=
  match nth_error v (N.to_nat i) with
  | Some x => ret x
  | None => crash (vector_out_of_bounds i)
  end.

Definition vsize (v : list N) : N := N.of_nat (List.length v).

Definition is_set {A} (p : option A) : bool :=
  match p with
  | Some _ => true
  | None => false
  end.

(** Assigning to a [unique_ptr] member: the new builder, if any, has
    been constructed by then ([make_unique]); the one the pointer owned
    is destroyed. *)
Definition assign_unigram_builder_ (new : option unigram_builder_type)
  : M ngram_handler unit :=
  (match new with
   | Some b => perform (builder_created unigram (options b))
   | None => ret tt
   end ;;
   h <- get ;;
   match unigram_builder_ h with
   | Some old => perform (builder_destroyed unigram (options old))
   | None => ret tt
   end ;;
   modify (set_unigram_builder_ new))%cpp.

Definition assign_middle_builder_ (new : option middle_builder_type)
  : M ngram_handler unit :=
  (match new with
   | Some b => perform (builder_created middle (options b))
   | None => ret tt
   end ;;
   h <- get ;;
   match middle_builder_ h with
   | Some old => perform (builder_destroyed middle (options old))
   | None => ret tt
   end ;;
   modify (set_middle_builder_ new))%cpp.

Definition assign_last_builder_ (new : option last_builder_type)
  : M ngram_handler unit :=
  (match new with
   | Some b => perform (builder_created last (options b))
   | None => ret tt
   end ;;
   h <- get ;;
   match last_builder_ h with
   | Some old => perform (builder_destroyed last (options old))
   | None => ret tt
   end ;;
   modify (set_last_builder_ new))%cpp.

(** [void count(uint64_t ngram_count)] *)
Definition count (ngram_count : N) : M ngram_handler unit :=
  (modify (fun h => set_counts_ (counts_ h ++ [ngram_count]) h) ;;
   h <- get ;;
   if vsize (counts_ h) =? 1 then
     let options :=
       {| prefix := prefix_ h ++ "/0/"; num_keys := ngram_count |} in
     perform (make_directory (prefix options)) ;;
     assign_unigram_builder_ (Some (make_builder options))
   else ret tt)%cpp.

(** [void finish_order()] *)
Definition finish_order : M ngram_handler unit :=
  (modify (set_observed_ 0) ;;
   h <- get ;;
   if order_ h =? 0 then
     (* unigrams *)
     assert (is_set (unigram_builder_ h)) "unigram_builder_" ;;
     b <- deref (unigram_builder_ h) "unigram_builder_" ;;
     perform (builder_written unigram (options b) (unigram_table (write b))) ;;
     assign_unigram_builder_ None ;;
     modify (set_unigrams_ (Some (write b))) ;;
     perform (map_opened (prefix_ h ++ "/0")) ;;
     n <- at_index (counts_ h) (U64.add (order_ h) 1) ;;
     let options :=
       {| prefix := prefix_ h ++ "/" ++ Cpp.to_string (U64.add (order_ h) 1);
          num_keys := n |} in
     perform (make_directory (prefix options)) ;;
     assign_middle_builder_ (Some (make_builder options))
   else if order_ h <? U64.sub (vsize (counts_ h)) 1 then
     (* middle *)
     assert (is_set (middle_builder_ h)) "middle_builder_" ;;
     b <- deref (middle_builder_ h) "middle_builder_" ;;
     perform (builder_written middle (options b) (middle_table (write b))) ;;
     if U64.add (order_ h) 1 <? U64.sub (vsize (counts_ h)) 1 then
       (* set up the next middle builder *)
       n <- at_index (counts_ h) (U64.add (order_ h) 1) ;;
       let options :=
         {| prefix := prefix_ h ++ "/" ++ Cpp.to_string (U64.add (order_ h) 1);
            num_keys := n |} in
       perform (make_directory (prefix options)) ;;
       assign_middle_builder_ (Some (make_builder options))
     else
       (* here come the final ngrams *)
       assign_middle_builder_ None ;;
       n <- at_index (counts_ h) (U64.add (order_ h) 1) ;;
       let options :=
         {| prefix := prefix_ h ++ "/" ++ Cpp.to_string (U64.add (order_ h) 1);
            num_keys := n |} in
       perform (make_directory (prefix options)) ;;
       assign_last_builder_ (Some (make_builder options))
   else
     (* last *)
     assert (is_set (last_builder_ h)) "last_builder_" ;;
     b <- deref (last_builder_ h) "last_builder_" ;;
     perform (builder_written last (options b) (last_table (write b))) ;;
     assign_last_builder_ None)%cpp.

(** Lines 102-106 of [operator()]: an order boundary. *)
Definition advance (order : N) : M ngram_handler unit :=
  (h <- get ;;
   if order_ h <? order then
     finish_order ;;
     modify (set_order_ order)
   else ret tt)%cpp.

(** The callback given to [for_each_token]; [ids] is the vector it
    captures. *)
Definition resolve (token : string) (ids : list N) : M ngram_handler (list N) :=
  (if negb (token =? "")%string then
     h <- get ;;
     vocabulary <- deref (unigrams_ h) "unigrams_" ;;
     match index vocabulary token with
     | None => throw (runtime_error ("ngram contains unknown unigram " ++ token))
     | Some id => ret (ids ++ [id])%list
     end
   else ret ids)%cpp.

(** Lines 108-111 of [operator()]: one more gram of this order. *)
Definition observe (order : N) : M ngram_handler unit :=
  (modify (fun h => set_observed_ (U64.add (observed_ h) 1) h) ;;
   h <- get ;;
   declared <- at_index (counts_ h) order ;;
   if declared <? observed_ h then
     throw (runtime_error
              ("too many " ++ Cpp.to_string (U64.add order 1) ++ "-grams"))
   else ret tt)%cpp.

(** Lines 113-155 of [operator()]: the gram goes to the builder. *)
Definition forward (order : N) (ngram : string) (prob backoff : float)
  : M ngram_handler unit :=
  (h <- get ;;
   if order_ h =? 0 then
     assert (is_set (unigram_builder_ h)) "unigram_builder_" ;;
     let value := {| prob := prob; backoff := backoff |} in
     b <- deref (unigram_builder_ h) "unigram_builder_" ;;
     modify (set_unigram_builder_ (Some (insert b ngram value)))
   else
     assert (is_set (middle_builder_ h) || is_set (last_builder_ h))
       "middle_builder_ || last_builder_" ;;
     assert (is_set (unigrams_ h)) "unigrams_" ;;
     ids <- for_each_token ngram " " resolve [] ;;
     assert (vsize ids =? U64.add order 1) "ids.size() == order + 1" ;;
     let value := {| prob := prob; backoff := backoff |} in
     if negb (order_ h =? U64.sub (vsize (counts_ h)) 1) then
       b <- deref (middle_builder_ h) "middle_builder_" ;;
       modify (set_middle_builder_ (Some (insert b ids value)))
     else
       b <- deref (last_builder_ h) "last_builder_" ;;
       modify (set_last_builder_ (Some (insert b ids prob))))%cpp.

(** [void operator()(uint64_t order, const std::string& ngram, float prob,
    float backoff)] *)
Definition call (order : N) (ngram : string) (prob backoff : float)
  : M ngram_handler unit :=
  (advance order ;;
   observe order ;;
   forward order ngram prob backoff)%cpp.

(** [uint64_t order() const] *)
Definition order (h : ngram_handler) : N := order_ h.

(** *** The ARPA stream reader: [read_from_arpa]

    The function is a template over the handler; it uses [count] and
    [operator()] of it. *)

Class NGramHandler (H : Type) : Type := {
  handler_count : N -> M H unit;
  handler_call : N -> string -> float -> float -> M H unit
}.

#[global] Instance ngram_handler_NGramHandler : NGramHandler ngram_handler :=
  {| handler_count := count; handler_call := call |}.

(** A handler that only writes down what the reader gives it. *)
Record recorder : Type := {
  declared_counts : list N;
  tuples : list (N * string * float * float)
}.

#[global] Instance recorder_NGramHandler : NGramHandler recorder :=
  {| handler_count := fun n =>
       modify (fun r => {| declared_counts := declared_counts r ++ [n];
                           tuples := tuples r |});
     handler_call := fun order ngram prob backoff =>
       modify (fun r => {| declared_counts := declared_counts r;
                           tuples := tuples r ++ [(order, ngram, prob, backoff)] |})
  |}.

Section Reader.

Context {H : Type} {handler : NGramHandler H}.

(** One turn of the first loop; [true] when it ends with [break]. *)
Definition header_line (buffer : string) : M H bool :=
  ((if Cpp.find_is_0 buffer "ngram " then
      let equal := Cpp.find_first_of buffer "=" 0 in
      text <- lift (Cpp.substr buffer (U64.add equal 1) U64.npos) ;;
      ngram_count <- lift (Cpp.stoul text) ;;
      handler_count ngram_count
    else ret tt) ;;
   ret (Cpp.find_is_0 buffer "\1-grams:"))%cpp.

(** The first loop; what it returns is the rest of the stream. *)
Fixpoint read_header (lines : list string) : M H (list string) :=
  match lines with
  | [] => ret []
  | buffer :: rest =>
      (stop <- header_line buffer ;;
       if stop : bool then ret rest else read_header rest)%cpp
  end.

(** Lines 59-65: the fields of a data line. *)
Definition fields (buffer : string) : M H (string * float * float) :=
  (let first_tab := Cpp.find_first_of buffer TAB 0 in
   text <- lift (Cpp.substr buffer 0 first_tab) ;;
   prob <- lift (stof text) ;;
   let second_tab := Cpp.find_first_of buffer TAB (U64.add first_tab 1) in
   ngram <- lift (Cpp.substr buffer (U64.add first_tab 1)
                    (U64.sub (U64.sub second_tab first_tab) 1)) ;;
   backoff <-
     (if negb (second_tab =? U64.npos) then
        text <- lift (Cpp.substr buffer (U64.add second_tab 1) U64.npos) ;;
        lift (stof text)
      else ret float_zero) ;;
   ret (ngram, prob, backoff))%cpp.

(** One turn of the second loop; the result is [order] afterwards. *)
Definition data_line (buffer : string) (order : N) : M H N :=
  (if (buffer =? "")%string
      || ((Cpp.at_ buffer 0 =? "\")%char && (Cpp.at_ buffer 1 =? "e")%char)
   then ret order
   else if (Cpp.at_ buffer 0 =? "\")%char then ret (U64.add order 1)
   else
     f <- fields buffer ;;
     let '(ngram, prob, backoff) := f in
     handler_call order ngram prob backoff ;;
     ret order)%cpp.

Fixpoint read_data (lines : list string) (order : N) : M H unit :=
  match lines with
  | [] => ret tt
  | buffer :: rest =>
      (order' <- data_line buffer order ;; read_data rest order')%cpp
  end.

Definition read_from_arpa (lines : list string) : M H unit :=
  (rest <- read_header lines ;; read_data rest 0)%cpp.

End Reader.

(** *** The pipeline driver: [build_from_arpa]

    Modelled from the spec: [filesystem::remove_all] and
    [filesystem::make_directory] of [meta/io/filesystem.h] are not among
    the sources.  The text files are kept by path; [remove_all] takes
    away the path and all that lies below it.  A file that cannot be
    opened reads as an empty stream, as [std::ifstream] has it. *)

Definition file_system : Type := list (string * list string).

Definition below (dir path : string) : bool :=
  (path =? dir)%string || String.prefix (dir ++ "/") path.

Definition fs_remove_all (dir : string) (fs : file_system) : file_system :=
  filter (fun f => negb (below dir (fst f))) fs.

Definition ifstream (fs : file_system) (filename : string) : list string :=
  match find (fun f => (fst f =? filename)%string) fs with
  | Some f => snd f
  | None => []
  end.

Definition build_from_arpa (fs : file_system) (arpa_file prefix : string)
  : outcome ngram_handler N :=
  let fs1 := fs_remove_all prefix fs in
  let world := [remove_all prefix; make_directory prefix] in
  (read_from_arpa (ifstream fs1 arpa_file) ;;
   (* finish off the n-grams *)
   finish_order ;;
   h <- get ;;
   ret (order h))%cpp (construct prefix world).

End Model.

Arguments options {K V} _.
Arguments inserted {K V} _.
Arguments table {K V} _.

(** ** A concrete platform and concrete ARPA files

    For the runs on given files the platform is fixed: a [float] is the
    exact value of the decimal numeral ([stof] reads sign, digits and
    fraction and leaves the rest of the text, as [std::stof] does on such
    input), and a key has the slot of its first place among the keys. *)

Module Scenario.

Definition decimal (s : string) : result Q :=
  let s1 := Cpp.skip_space s in
  let '(negative, s2) :=
    match s1 with
    | String "-" r => (true, r)
    | String "+" r => (false, r)
    | _ => (false, s1)
    end in
  let '(whole, n1) := Cpp.digits 0 O s2 in
  let '(fraction, n2) :=
    match Cpp.drop n1 s2 with
    | String "." r => Cpp.digits 0 O r
    | _ => (0, O)
    end in
  match (n1 + n2)%nat with
  | O => Raise (invalid_argument "stof")
  | S _ =>
      let scale := 10 ^ N.of_nat n2 in
      let magnitude := Z.of_N (whole * scale + fraction) in
      Value (Qred (Qmake (if negative then Z.opp magnitude else magnitude)
                     (N.succ_pos (N.pred scale))))
  end.

Fixpoint position (keys : list string) (key : string) : N :=
  match keys with
  | [] => 0
  | k :: rest => if (k =? key)%string then 0 else N.succ (position rest key)
  end.

Definition floats : FloatModel := {| float := Q |}.

Definition platform (ndebug : bool) : @Platform floats :=
  @Build_Platform floats decimal (Qmake 0 1) position ndebug.

Definition line2 (p g : string) : string := p ++ TAB ++ g.
Definition line3 (p g b : string) : string := p ++ TAB ++ g ++ TAB ++ b.

(** With [assert] compiled in, and without. *)
Definition checked : @Platform floats := platform false.
Definition unchecked : @Platform floats := platform true.

(** The two-order file of the end-to-end scenario. *)
Definition bigram_arpa : list string :=
  [ "\data\"; "ngram 1=3"; "ngram 2=2"; "";
    "\1-grams:";
    line3 "-1.0" "a" "-0.3"; line3 "-2.0" "b" "-0.1"; line3 "-3.0" "<unk>" "0.0";
    "";
    "\2-grams:";
    line2 "-0.5" "a b"; line2 "-0.7" "b a";
    "";
    "\end\" ].

(** The same with trigrams after the bigrams. *)
Definition trigram_arpa : list string :=
  [ "\data\"; "ngram 1=3"; "ngram 2=2"; "ngram 3=1"; "";
    "\1-grams:";
    line3 "-1.0" "a" "-0.3"; line3 "-2.0" "b" "-0.1"; line3 "-3.0" "<unk>" "0.0";
    "";
    "\2-grams:";
    line3 "-0.5" "a b" "-0.2"; line3 "-0.7" "b a" "-0.4";
    "";
    "\3-grams:";
    line2 "-0.9" "a b a";
    "";
    "\end\" ].


(** Two unigrams declared, three given. *)
Definition overfull_arpa : list string :=
  [ "\data\"; "ngram 1=2"; "ngram 2=1"; "";
    "\1-grams:";
    line3 "-1.0" "a" "-0.3"; line3 "-2.0" "b" "-0.1"; line3 "-3.0" "c" "-0.2";
    "";
    "\2-grams:";
    line2 "-0.5" "a b";
    "";
    "\end\" ].

(** Unigrams only. *)
Definition unigram_arpa : list string :=
  [ "\data\"; "ngram 1=2"; "";
    "\1-grams:";
    line2 "-1.0" "a"; line2 "-2.0" "b";
    "";
    "\end\" ].

Definition disk (lines : list string) : file_system :=
  [ ("lm.arpa", lines); ("out/0/stale", ["left by an earlier build"]) ].

(** The unigrams of the files above, as the vocabulary. *)
Definition vocabulary : ngram_map string (@prob_backoff floats) :=
  {| table :=
       [ ("a", @Build_prob_backoff floats (Qmake (-1) 1) (Qmake (-3) 10));
         ("b", @Build_prob_backoff floats (Qmake (-2) 1) (Qmake (-1) 10));
         ("<unk>", @Build_prob_backoff floats (Qmake (-3) 1) (Qmake 0 1)) ] |}.

(** [build_from_arpa("lm.arpa", "out")] on a disk that holds [lines]. *)
Definition run (ndebug : bool) (lines : list string) : outcome ngram_handler N :=
  @build_from_arpa floats (platform ndebug) (disk lines) "lm.arpa" "out".

(** The handler when the reader has taken the first [n] lines. *)
Definition handler_after (ndebug : bool) (n : nat) (lines : list string)
  : ngram_handler :=
  final (@read_from_arpa floats (platform ndebug) _
           (@ngram_handler_NGramHandler floats (platform ndebug))
           (firstn n lines)
           (construct "out" [remove_all "out"; make_directory "out"])).

End Scenario.

(** ** Vocabulary of the properties *)

(** No tab character in the text. *)
Fixpoint tab_free (s : string) : bool :=
  match s with
  | EmptyString => true
  | String c s' => negb (Ascii.eqb c "009") && tab_free s'
  end.

(** The tokens of a gram text: what stands between the spaces. *)
Definition tokens (ngram : string) : list string :=
  filter (fun t => negb (t =? "")%string)
    (pieces (list_ascii_of_string " ") EmptyString ngram).

Section Vocabulary.

Context {FM : FloatModel} {P : Platform}.

(** The ids of the tokens in the vocabulary, or the first token that
    has none. *)
Fixpoint lookup_all (vocabulary : ngram_map string prob_backoff)
  (toks : list string) : string + list N :=
  match toks with
  | [] => inr []
  | t :: rest =>
      match index vocabulary t with
      | None => inl t
      | Some id =>
          match lookup_all vocabulary rest with
          | inl unknown => inl unknown
          | inr ids => inr (id :: ids)
          end
      end
  end.

(** At order 0, when counts have been declared there is a unigram
    builder. *)
Definition started (h : ngram_handler) : Prop :=
  order_ h = 0 /\ (counts_ h <> [] -> unigram_builder_ h <> None).

Definition one_order (h : ngram_handler) : Prop :=
  started h /\ List.length (counts_ h) = 1%nat.

(** A builder as the effects name it: its kind and its options. *)
Definition builder_id : Type := builder_kind * options_type.

(** The builders constructed in a run of effects, in order. *)
Fixpoint created (t : list effect) : list builder_id :=
  match t with
  | [] => []
  | builder_created k o :: t' => (k, o) :: created t'
  | _ :: t' => created t'
  end.

(** The builders written in a run of effects, in order. *)
Fixpoint written (t : list effect) : list builder_id :=
  match t with
  | [] => []
  | builder_written k o _ :: t' => (k, o) :: written t'
  | _ :: t' => written t'
  end.





(** The unigram builder has been destroyed. *)
Definition unigram_released (t : list effect) : Prop :=
  exists o, In (builder_destroyed unigram o) t.

(** An effect that respects the order of the builders, given the effects
    before it: a builder is constructed when every builder constructed
    before is written, one of a higher order when the unigram builder is
    gone; the builder that is written is the one not yet written. *)
Definition legal (past : list effect) (e : effect) : Prop :=
  match e with
  | builder_created k o =>
      created past = written past
      /\ (k <> unigram -> unigram_released past)
  | builder_written k o _ => created past = (written past ++ [(k, o)])%list
  | _ => True
  end.

Definition orderly (t : list effect) : Prop :=
  forall past e rest, t = (past ++ e :: rest)%list -> legal past e.

(** The builders the handler points to. *)
Definition active (h : ngram_handler) : list builder_id :=
  (match unigram_builder_ h with
   | Some b => [(unigram, options b)]
   | None => []
   end
   ++ match middle_builder_ h with
      | Some b => [(middle, options b)]
      | None => []
      end
   ++ match last_builder_ h with
      | Some b => [(last, options b)]
      | None => []
      end)%list.

(** The handler between two calls: its effects are orderly, the builder
    it points to, if any, is the one constructed and not yet written, and
    past order 0 the unigram builder is gone. *)
Definition tidy (h : ngram_handler) : Prop :=
  orderly (effects h)
  /\ created (effects h) = (written (effects h) ++ active h)%list
  /\ (List.length (active h) <= 1)%nat
  /\ (order_ h <> 0 \/ middle_builder_ h <> None \/ last_builder_ h <> None ->
      unigram_released (effects h))
  /\ (counts_ h = [] -> active h = []).

(** The handler with a guard in front of [operator()]: a tuple of an
    order below the handler's is refused.  The reader never trips it
    (see [reader_never_goes_back]). *)
Definition guarded : NGramHandler ngram_handler :=
  {| handler_count := count;
     handler_call := fun order ngram prob backoff h =>
       if order_ h <=? order then call order ngram prob backoff h
       else Faulted (assert_failed "order >= order_") h |}.

(** The tuples the reader gives to its handler for a file, while the
    numbers of the file can be read. *)
Definition emitted (lines : list string) : list (N * string * float * float) :=
  tuples (final (read_from_arpa lines {| declared_counts := []; tuples := [] |})).


Definition order_of (t : N * string * float * float) : N :=
  let '(order, _, _, _) := t in order.


(** [operator()] on unigrams one after the other, as the second loop
    calls it for the lines of the first section. *)
Fixpoint unigram_calls (grams : list (string * float * float))
  : M ngram_handler unit :=
  match grams with
  | [] => ret tt
  | (ngram, prob, backoff) :: rest =>
      (call 0 ngram prob backoff ;; unigram_calls rest)%cpp
  end.

(** The key and the value of a unigram in its builder. *)
Definition unigram_entry (gram : string * float * float)
  : string * prob_backoff :=
  let '(ngram, prob, backoff) := gram in
  (ngram, {| prob := prob; backoff := backoff |}).

(** The path an effect names: the directory that is removed, made or
    opened, or [options.prefix] of the builder. *)
Definition path_of (e : effect) : string :=
  match e with
  | remove_all path | make_directory path | map_opened path => path
  | builder_created _ o | builder_written _ o _ | builder_destroyed _ o =>
      prefix o
  end.

(** The options of a builder that is held name a path at or below [dir]. *)
Definition held_below (dir : string) (o : option options_type) : Prop :=
  match o with
  | Some o => below dir (prefix o) = true
  | None => True
  end.

(** The handler works at or below [dir]: its prefix is [dir], and the
    paths of its effects and of its builders are at or below [dir]. *)
Definition confined (dir : string) (h : ngram_handler) : Prop :=
  prefix_ h = dir
  /\ Forall (fun e => below dir (path_of e) = true) (effects h)
  /\ held_below dir (option_map options (unigram_builder_ h))
  /\ held_below dir (option_map options (middle_builder_ h))
  /\ held_below dir (option_map options (last_builder_ h)).

(** The handler while the header is read, [world] being the effects
    before it was constructed: it has made nothing when no count has
    been declared, and else only the unigram builder, in [dir/0/], with
    as many keys as the first count says. *)
Definition in_header (dir : string) (world : list effect) (h : ngram_handler)
  : Prop :=
  prefix_ h = dir /\ order_ h = 0 /\ observed_ h = 0
  /\ unigrams_ h = None /\ middle_builder_ h = None /\ last_builder_ h = None
  /\ match counts_ h with
     | [] => unigram_builder_ h = None /\ effects h = world
     | first :: _ =>
         let o := {| prefix := dir ++ "/0/"; num_keys := first |} in
         unigram_builder_ h = Some (make_builder o)
         /\ effects h
            = (world ++ [make_directory (dir ++ "/0/");
                         builder_created unigram o])%list
     end.

End Vocabulary.

(** The number of orders a file declares: its lines that begin with
    "ngram " up to the line that begins with "\1-grams:". *)
Fixpoint declared_orders (lines : list string) : nat :=
  match lines with
  | [] => O
  | buffer :: rest =>
      ((if Cpp.find_is_0 buffer "ngram " then 1 else 0)
       + (if Cpp.find_is_0 buffer "\1-grams:" then 0 else declared_orders rest))%nat
  end.

(** An outcome without its value. *)
Definition shape {S A} (o : outcome S A) : outcome S unit :=
  match o with
  | Done _ s => Done tt s
  | Thrown e s => Thrown e s
  | Faulted f s => Faulted f s
  end.

(** How a computation ends: normally in a state that satisfies [I], or
    with an exception or a fault in a state that satisfies [Q]. *)
Definition ends {S A} (I Q : S -> Prop) (o : outcome S A) : Prop :=
  match o with
  | Done _ s => I s
  | Thrown _ s => Q s
  | Faulted _ s => Q s
  end.

(** The character [c] does not occur in the text. *)
Fixpoint lacks (c : ascii) (s : string) : bool :=
  match s with
  | EmptyString => true
  | String c' s' => negb (Ascii.eqb c' c) && lacks c s'
  end.

(** The value of a decimal numeral read from the left, after [acc]. *)
Fixpoint numeral_value (acc : N) (d : Decimal.uint) : N :=
  match d with
  | Decimal.Nil => acc
  | Decimal.D0 l => numeral_value (10 * acc) l
  | Decimal.D1 l => numeral_value (10 * acc + 1) l
  | Decimal.D2 l => numeral_value (10 * acc + 2) l
  | Decimal.D3 l => numeral_value (10 * acc + 3) l
  | Decimal.D4 l => numeral_value (10 * acc + 4) l
  | Decimal.D5 l => numeral_value (10 * acc + 5) l
  | Decimal.D6 l => numeral_value (10 * acc + 6) l
  | Decimal.D7 l => numeral_value (10 * acc + 7) l
  | Decimal.D8 l => numeral_value (10 * acc + 8) l
  | Decimal.D9 l => numeral_value (10 * acc + 9) l
  end.

(** A line that the second loop passes over: blank, or beginning with
    a backslash and an "e". *)
Definition passed_over (buffer : string) : bool :=
  (buffer =? "")%string
  || ((Cpp.at_ buffer 0 =? "\")%char && (Cpp.at_ buffer 1 =? "e")%char).

(** * Properties *)

(** ** Machine integers and strings *)

Section StringFacts.

#[local] Arguments Ascii.eqb : simpl never.

Lemma modulus_value : U64.modulus = 18446744073709551616.
Proof. reflexivity. Qed.

Lemma wrap_small (x : N) : x < U64.modulus -> U64.wrap x = x.
Proof. intros. unfold U64.wrap. apply N.mod_small. assumption. Qed.

Lemma add_small (x y : N) : x + y < U64.modulus -> U64.add x y = x + y.
Proof. intros. unfold U64.add. apply wrap_small. assumption. Qed.

Lemma sub_small (x y : N) : y <= x -> x < U64.modulus -> U64.sub x y = x - y.
Proof.
  intros Hyx Hx. unfold U64.sub, U64.wrap.
  rewrite (N.mod_small y U64.modulus) by lia.
  replace (x + U64.modulus - y) with ((x - y) + 1 * U64.modulus) by lia.
  rewrite N.Div0.mod_add. apply N.mod_small. lia.
Qed.

Lemma length_append (s r : string) :
  String.length (s ++ r) = (String.length s + String.length r)%nat.
Proof. induction s; simpl; congruence. Qed.

Lemma append_assoc (s r t : string) : ((s ++ r) ++ t = s ++ r ++ t)%string.
Proof. induction s; simpl; congruence. Qed.

Lemma size_append (s r : string) : Cpp.size (s ++ r) = Cpp.size s + Cpp.size r.
Proof.
  unfold Cpp.size. rewrite length_append. apply Nnat.Nat2N.inj_add.
Qed.

Lemma drop_append (s r : string) : Cpp.drop (String.length s) (s ++ r) = r.
Proof. induction s; simpl; auto. Qed.

Lemma take_append (s r : string) : Cpp.take (String.length s) (s ++ r) = s.
Proof. induction s; simpl; congruence. Qed.

Lemma take_all (s : string) : Cpp.take (String.length s) s = s.
Proof. induction s; simpl; congruence. Qed.

Lemma first_of_tab_free (s : string) :
  tab_free s = true -> Cpp.first_of ["009"%char] s = None.
Proof.
  induction s as [|c s IH]; simpl; auto.
  destruct (Ascii.eqb c "009"); simpl; try discriminate.
  intros Hs. rewrite (IH Hs). reflexivity.
Qed.

Lemma first_of_at_tab (s r : string) :
  tab_free s = true ->
  Cpp.first_of ["009"%char] (s ++ TAB ++ r) = Some (String.length s).
Proof.
  induction s as [|c s IH]; [reflexivity|].
  cbn [tab_free append Cpp.first_of existsb String.length].
  destruct (Ascii.eqb c "009"); simpl negb; simpl orb; simpl andb;
    try discriminate.
  intros Hs. rewrite (IH Hs). reflexivity.
Qed.

Lemma find_first_of_TAB (s : string) (pos : N) :
  Cpp.find_first_of s TAB pos =
  if Cpp.size s <=? pos then U64.npos
  else match Cpp.first_of ["009"%char] (Cpp.drop (N.to_nat pos) s) with
       | Some i => pos + N.of_nat i
       | None => U64.npos
       end.
Proof. reflexivity. Qed.

Lemma find_tab_first (p r : string) :
  tab_free p = true ->
  Cpp.find_first_of (p ++ TAB ++ r) TAB 0 = Cpp.size p.
Proof.
  intros Hp. rewrite find_first_of_TAB.
  rewrite !size_append. change (Cpp.size TAB) with 1.
  destruct (N.leb_spec (Cpp.size p + (1 + Cpp.size r)) 0); [lia|].
  change (Cpp.drop (N.to_nat 0) (p ++ TAB ++ r)) with (p ++ TAB ++ r).
  rewrite (first_of_at_tab p r Hp). reflexivity.
Qed.

Lemma length_with_tab (p : string) :
  N.to_nat (Cpp.size p + 1) = String.length (p ++ TAB).
Proof. unfold Cpp.size. rewrite length_append. simpl. lia. Qed.

Lemma find_tab_absent (p g : string) :
  tab_free g = true ->
  Cpp.find_first_of (p ++ TAB ++ g) TAB (Cpp.size p + 1) = U64.npos.
Proof.
  intros Hg. rewrite find_first_of_TAB.
  destruct (_ <=? _); [reflexivity|].
  rewrite length_with_tab, <- append_assoc, drop_append.
  rewrite (first_of_tab_free g Hg). reflexivity.
Qed.

Lemma find_tab_second (p g b : string) :
  tab_free g = true ->
  Cpp.find_first_of (p ++ TAB ++ g ++ TAB ++ b) TAB (Cpp.size p + 1)
  = Cpp.size p + 1 + Cpp.size g.
Proof.
  intros Hg. rewrite find_first_of_TAB.
  rewrite !size_append. change (Cpp.size TAB) with 1.
  destruct (N.leb_spec (Cpp.size p + (1 + (Cpp.size g + (1 + Cpp.size b))))
              (Cpp.size p + 1)); [lia|].
  rewrite length_with_tab, <- append_assoc, drop_append.
  rewrite (first_of_at_tab g b Hg). reflexivity.
Qed.

Lemma substr_to_end (a s : string) (count : N) :
  Cpp.size s <= count ->
  Cpp.substr (a ++ s) (Cpp.size a) count = Value s.
Proof.
  intros Hc. unfold Cpp.substr. rewrite size_append.
  destruct (N.ltb_spec (Cpp.size a + Cpp.size s) (Cpp.size a)); [lia|].
  replace (Cpp.size a + Cpp.size s - Cpp.size a) with (Cpp.size s) by lia.
  rewrite N.min_r by lia.
  unfold Cpp.size. rewrite !Nnat.Nat2N.id. rewrite drop_append, take_all.
  reflexivity.
Qed.

Lemma substr_exact (a s r : string) :
  Cpp.substr (a ++ s ++ r) (Cpp.size a) (Cpp.size s) = Value s.
Proof.
  unfold Cpp.substr. rewrite !size_append.
  destruct (N.ltb_spec (Cpp.size a + (Cpp.size s + Cpp.size r)) (Cpp.size a));
    [lia|].
  rewrite N.min_l by lia.
  unfold Cpp.size. rewrite !Nnat.Nat2N.id. rewrite drop_append, take_append.
  reflexivity.
Qed.

End StringFacts.

(** ** The reader *)

Section ReaderFacts.

Context {FM : FloatModel} {P : Platform} {H : Type} {handler : NGramHandler H}.

Lemma substr_first (p r : string) :
  Cpp.substr (p ++ r) 0 (Cpp.size p) = Value p.
Proof. exact (substr_exact EmptyString p r). Qed.

Lemma substr_second (p g r : string) :
  Cpp.substr (p ++ TAB ++ g ++ r) (Cpp.size p + 1) (Cpp.size g) = Value g.
Proof.
  replace (Cpp.size p + 1) with (Cpp.size (p ++ TAB))
    by (rewrite size_append; reflexivity).
  rewrite <- append_assoc. apply substr_exact.
Qed.

Lemma substr_third (p g b : string) :
  Cpp.size b <= U64.npos ->
  Cpp.substr (p ++ TAB ++ g ++ TAB ++ b) (Cpp.size p + 1 + Cpp.size g + 1)
    U64.npos = Value b.
Proof.
  intros Hb.
  replace (Cpp.size p + 1 + Cpp.size g + 1)
    with (Cpp.size (((p ++ TAB) ++ g) ++ TAB))
    by (rewrite !size_append; reflexivity).
  replace (p ++ TAB ++ g ++ TAB ++ b) with ((((p ++ TAB) ++ g) ++ TAB) ++ b)
    by (rewrite !append_assoc; reflexivity).
  apply substr_to_end. assumption.
Qed.

(** The fields of [probability TAB gram-text TAB backoff]. *)
Lemma fields_with_backoff (p g b : string) (h : H) :
  tab_free p = true -> tab_free g = true ->
  Cpp.size (p ++ TAB ++ g ++ TAB ++ b) < U64.npos ->
  fields (p ++ TAB ++ g ++ TAB ++ b) h
  = (prob <- lift (stof p) ;;
     backoff <- lift (stof b) ;;
     ret (g, prob, backoff))%cpp h.
Proof.
  intros Hp Hg Hsize.
  rewrite !size_append in Hsize. change (Cpp.size TAB) with 1 in Hsize.
  unfold U64.npos in Hsize.
  unfold fields.
  rewrite (find_tab_first p _ Hp).
  rewrite add_small by lia.
  rewrite (find_tab_second p g b Hg).
  rewrite (sub_small (Cpp.size p + 1 + Cpp.size g) (Cpp.size p)) by lia.
  rewrite sub_small by lia.
  replace (Cpp.size p + 1 + Cpp.size g - Cpp.size p - 1) with (Cpp.size g) by lia.
  rewrite add_small by lia.
  rewrite substr_first, substr_second.
  rewrite substr_third by (unfold U64.npos; lia).
  destruct (N.eqb_spec (Cpp.size p + 1 + Cpp.size g) U64.npos) as [E|_];
    [unfold U64.npos in E; lia|].
  unfold bind, lift, ret, throw.
  destruct (stof p); [|reflexivity].
  destruct (stof b); reflexivity.
Qed.

(** The fields of [probability TAB gram-text]. *)
Lemma fields_without_backoff (p g : string) (h : H) :
  tab_free p = true -> tab_free g = true ->
  Cpp.size (p ++ TAB ++ g) < U64.npos ->
  fields (p ++ TAB ++ g) h
  = (prob <- lift (stof p) ;; ret (g, prob, float_zero))%cpp h.
Proof.
  intros Hp Hg Hsize.
  rewrite !size_append in Hsize. change (Cpp.size TAB) with 1 in Hsize.
  unfold U64.npos in Hsize.
  unfold fields.
  rewrite (find_tab_first p _ Hp).
  rewrite add_small by lia.
  rewrite (find_tab_absent p g Hg).
  rewrite (sub_small U64.npos (Cpp.size p)) by (unfold U64.npos; lia).
  rewrite sub_small by (unfold U64.npos; lia).
  rewrite substr_first.
  replace (Cpp.substr (p ++ TAB ++ g) (Cpp.size p + 1)
             (U64.npos - Cpp.size p - 1)) with (Value g).
  2:{ symmetry.
      replace (Cpp.size p + 1) with (Cpp.size (p ++ TAB))
        by (rewrite size_append; reflexivity).
      rewrite <- append_assoc. apply substr_to_end.
      unfold U64.npos. lia. }
  rewrite N.eqb_refl.
  unfold bind, lift, ret, throw.
  destruct (stof p); reflexivity.
Qed.

(** A line with a tab that does not begin with a backslash is neither
    blank, nor the end marker, nor the start of an order. *)
Lemma data_line_is_data (p r : string) (order : N) (h : H) :
  (Cpp.at_ p 0 =? "\")%char = false ->
  data_line (p ++ TAB ++ r) order h
  = (f <- fields (p ++ TAB ++ r) ;;
     let '(ngram, prob, backoff) := f in
     handler_call order ngram prob backoff ;;
     ret order)%cpp h.
Proof.
  intros Hp. unfold data_line.
  destruct p as [|c p].
  - reflexivity.
  - change (Cpp.at_ (String c p ++ TAB ++ r) 0) with c.
    change (Cpp.at_ (String c p) 0) with c in Hp.
    rewrite Hp. reflexivity.
Qed.

End ReaderFacts.

(** C8.  What the reader emits for a data line.  For the line
    [probability TAB gram-text TAB backoff] the handler receives the
    gram text that stands strictly between the first and the second tab,
    the parsed probability and the parsed backoff; for the line
    [probability TAB gram-text], with no second tab, it receives the text
    after the tab, the parsed probability and the backoff [0.0].  The
    order passed on is the reader's current order, which the line leaves
    as it is. *)
Theorem C8_reader_emits_fields_of_data_line
  {FM : FloatModel} {P : Platform} (p g b : string) (order : N) (r : recorder)
  (x y : float) :
  tab_free p = true ->
  tab_free g = true ->
  (Cpp.at_ p 0 =? "\")%char = false ->
  Cpp.size (p ++ TAB ++ g ++ TAB ++ b) < U64.npos ->
  stof p = Value x ->
  stof b = Value y ->
  data_line (p ++ TAB ++ g ++ TAB ++ b) order r
  = Done order {| declared_counts := declared_counts r;
                  tuples := tuples r ++ [(order, g, x, y)] |}
  /\ data_line (p ++ TAB ++ g) order r
     = Done order {| declared_counts := declared_counts r;
                     tuples := tuples r ++ [(order, g, x, float_zero)] |}.
Proof.
  intros Hp Hg Hdata Hsize Hx Hy. split.
  - rewrite data_line_is_data by assumption.
    unfold bind at 1. rewrite fields_with_backoff by assumption.
    rewrite Hx, Hy. reflexivity.
  - rewrite data_line_is_data by assumption.
    unfold bind at 1. rewrite fields_without_backoff; try assumption.
    + rewrite Hx. reflexivity.
    + rewrite !size_append in *. lia.
Qed.

(** ** The handler *)

(** Runs a member function on a handler whose members are known. *)
Ltac exec :=
  repeat (unfold bind, modify, get, ret, throw, crash, deref, perform, lift,
            at_index, assert, assign_unigram_builder_, assign_middle_builder_,
            assign_last_builder_, set_order_, set_observed_, set_counts_,
            set_unigram_builder_, set_unigrams_, set_middle_builder_,
            set_last_builder_;
          simpl).

(** Splits on the innermost undecided test of the goal. *)
Ltac innermost :=
  match goal with
  | |- context [match ?x with _ => _ end] =>
      lazymatch x with
      | context [match _ with _ => _ end] => fail
      | _ => destruct x eqn:?
      end
  end.

(** Evaluates the 64-bit sums of the goal whose operands are numerals. *)
Ltac numeral_pos p :=
  lazymatch p with
  | xH => idtac
  | xO ?q => numeral_pos q
  | xI ?q => numeral_pos q
  end.

Ltac numeral n :=
  lazymatch n with
  | N0 => idtac
  | Npos ?p => numeral_pos p
  end.

Ltac u64 :=
  repeat match goal with
         | |- context [U64.add ?a ?b] =>
             numeral a; numeral b;
             let v := eval vm_compute in (U64.add a b) in
             change (U64.add a b) with v
         end.

Section HandlerFacts.

Context {FM : FloatModel} {P : Platform}.

Lemma assert_holds {S} (c : bool) (expr : string) (s : S) :
  c = true -> assert c expr s = Done tt s.
Proof. intros ->. reflexivity. Qed.

Lemma at_index_in_bounds {S} (v : list N) (i x : N) (s : S) :
  nth_error v (N.to_nat i) = Some x -> at_index v i s = Done x s.
Proof. intros E. unfold at_index. rewrite E. reflexivity. Qed.

Lemma at_index_out_of_bounds {S} (v : list N) (i : N) (s : S) :
  nth_error v (N.to_nat i) = None ->
  at_index v i s = Faulted (vector_out_of_bounds i) s.
Proof. intros E. unfold at_index. rewrite E. reflexivity. Qed.

(** Finalizing order 0 when [counts_[1]] exists: the unigram builder is
    written and destroyed, its map is opened as the vocabulary, and a
    middle builder is made for [prefix_/1] with [counts_[1]] keys. *)
Lemma finish_order_of_unigrams (h : ngram_handler) (b : unigram_builder_type)
  (n : N) :
  order_ h = 0 ->
  unigram_builder_ h = Some b ->
  middle_builder_ h = None ->
  nth_error (counts_ h) 1 = Some n ->
  finish_order h
  = Done tt
      {| prefix_ := prefix_ h; order_ := 0; observed_ := 0;
         counts_ := counts_ h; unigram_builder_ := None;
         unigrams_ := Some (write b);
         middle_builder_ :=
           Some (make_builder {| prefix := prefix_ h ++ "/1"; num_keys := n |});
         last_builder_ := last_builder_ h;
         effects :=
           effects h ++
           [ builder_written unigram (options b) (unigram_table (write b));
             builder_destroyed unigram (options b);
             map_opened (prefix_ h ++ "/0");
             make_directory (prefix_ h ++ "/1");
             builder_created middle
               {| prefix := prefix_ h ++ "/1"; num_keys := n |} ] |}.
Proof.
  intros Ho Hb Hm Hn.
  destruct h as [pre ord obs cnt ub ug mb lb eff]. simpl in *. subst.
  unfold finish_order. change (U64.add 0 1) with 1.
  exec. rewrite Hn. exec.
  rewrite <- !app_assoc. reflexivity.
Qed.

Lemma for_each_resolve (v : ngram_map string prob_backoff) (toks : list string)
  (ids : list N) (h : ngram_handler) :
  unigrams_ h = Some v ->
  for_each toks resolve ids h
  = match lookup_all v (filter (fun t => negb (t =? "")%string) toks) with
    | inl t => Thrown (runtime_error ("ngram contains unknown unigram " ++ t)) h
    | inr l => Done (ids ++ l)%list h
    end.
Proof.
  intros Hv. revert ids.
  induction toks as [|t rest IH]; intros ids.
  - simpl. rewrite app_nil_r. reflexivity.
  - cbn [for_each filter]. unfold bind at 1. unfold resolve at 1.
    destruct (negb (t =? "")%string) eqn:Et.
    + cbn [lookup_all]. exec. rewrite Hv. exec.
      destruct (index v t) as [id|]; exec; [|reflexivity].
      rewrite IH. destruct (lookup_all v _); [reflexivity|].
      rewrite <- app_assoc. reflexivity.
    + exec. apply IH.
Qed.

Lemma call_unfold (order : N) (ngram : string) (prob backoff : float)
  (h : ngram_handler) :
  call order ngram prob backoff h
  = match advance order h with
    | Done _ h1 =>
        match observe order h1 with
        | Done _ h2 => forward order ngram prob backoff h2
        | Thrown e h2 => Thrown e h2
        | Faulted f h2 => Faulted f h2
        end
    | Thrown e h1 => Thrown e h1
    | Faulted f h1 => Faulted f h1
    end.
Proof. reflexivity. Qed.

Lemma observe_unfold (order declared : N) (h : ngram_handler) :
  nth_error (counts_ h) (N.to_nat order) = Some declared ->
  observe order h
  = let h2 := set_observed_ (U64.add (observed_ h) 1) h in
    if declared <? observed_ h2 then
      Thrown (runtime_error
                ("too many " ++ Cpp.to_string (U64.add order 1) ++ "-grams")) h2
    else Done tt h2.
Proof.
  intros Hc. unfold observe. exec. rewrite Hc. exec.
  destruct (declared <? _); reflexivity.
Qed.

Lemma finish_order_keeps_order (h h' : ngram_handler) :
  finish_order h = Done tt h' -> order_ h' = order_ h.
Proof.
  destruct h as [pre ord obs cnt ub ug mb lb eff].
  unfold finish_order. exec.
  repeat (innermost; exec); intros E; inversion E; reflexivity.
Qed.

Lemma advance_sets_order (order : N) (h h1 : ngram_handler) :
  order_ h <= order -> advance order h = Done tt h1 -> order_ h1 = order.
Proof.
  intros Hle. unfold advance. exec.
  destruct (N.ltb_spec (order_ h) order) as [Hlt|Hge].
  - destruct (finish_order h) as [[] h'| |]; exec; intros E; inversion E.
    reflexivity.
  - intros E. inversion E. subst. lia.
Qed.

(** What [operator()] does once the order boundary is behind it. *)
Lemma call_counts_then_forwards
  (h h1 : ngram_handler) (order declared : N) (ngram : string)
  (prob backoff : float) :
  order_ h <= order ->
  advance order h = Done tt h1 ->
  nth_error (counts_ h1) (N.to_nat order) = Some declared ->
  let h2 := set_observed_ (U64.add (observed_ h1) 1) h1 in
  order_ h2 = order
  /\ (declared < observed_ h2 ->
      call order ngram prob backoff h
      = Thrown (runtime_error
                  ("too many " ++ Cpp.to_string (U64.add order 1) ++ "-grams"))
          h2)
  /\ (observed_ h2 <= declared ->
      call order ngram prob backoff h = forward order ngram prob backoff h2)
  /\ unigram_builder_ h2 = unigram_builder_ h1
  /\ middle_builder_ h2 = middle_builder_ h1
  /\ last_builder_ h2 = last_builder_ h1.
Proof.
  intros Hle Hadv Hc h2.
  split; [exact (advance_sets_order order h h1 Hle Hadv)|].
  rewrite call_unfold, Hadv, (observe_unfold order declared h1 Hc).
  cbv zeta. fold h2.
  repeat split.
  - intros Hlt. apply N.ltb_lt in Hlt. rewrite Hlt. reflexivity.
  - intros Hge. apply N.ltb_ge in Hge. rewrite Hge. reflexivity.
Qed.

(** C3.  The declared count is enforced for every tuple, before the gram
    can reach a builder.  Let the reader hand a tuple of order [order] to
    a handler that is not past that order, and let the order boundary,
    if there is one, be passed ([advance] ends normally in [h1], whose
    current order is then [order]).  The observed count of the current
    order is incremented; when it now exceeds [counts_[order]] the call
    ends with the exception "too many <order+1>-grams" in a handler whose
    builders are those of [h1], so the gram has reached none of them;
    only when it does not exceed the declared count does the call go on
    to forward the gram. *)
Theorem C3_count_is_enforced_before_forwarding
  (h h1 : ngram_handler) (order declared : N) (ngram : string)
  (prob backoff : float) :
  order_ h <= order ->
  advance order h = Done tt h1 ->
  nth_error (counts_ h1) (N.to_nat order) = Some declared ->
  let h2 := set_observed_ (U64.add (observed_ h1) 1) h1 in
  order_ h2 = order
  /\ (declared < observed_ h2 ->
      call order ngram prob backoff h
      = Thrown (runtime_error
                  ("too many " ++ Cpp.to_string (U64.add order 1) ++ "-grams"))
          h2)
  /\ (observed_ h2 <= declared ->
      call order ngram prob backoff h = forward order ngram prob backoff h2)
  /\ unigram_builder_ h2 = unigram_builder_ h1
  /\ middle_builder_ h2 = middle_builder_ h1
  /\ last_builder_ h2 = last_builder_ h1.
Proof. exact (call_counts_then_forwards h h1 order declared ngram prob backoff). Qed.

Lemma lookup_all_unknown (v : ngram_map string prob_backoff)
  (toks : list string) (t : string) :
  In t toks -> index v t = None ->
  exists u, lookup_all v toks = inl u /\ In u toks /\ index v u = None.
Proof.
  induction toks as [|a rest IH]; intros Hin Ht; [contradiction|].
  cbn [lookup_all].
  destruct (index v a) as [id|] eqn:Ea.
  - destruct Hin as [->|Hin]; [congruence|].
    destruct (IH Hin Ht) as (u & Hu & Hin' & Hnone).
    exists u. rewrite Hu. auto using in_cons.
  - exists a. auto using in_eq.
Qed.

(** The gram of a higher order: its tokens are looked up first. *)
Lemma forward_higher (h : ngram_handler) (order : N) (ngram : string)
  (prob backoff : float) (v : ngram_map string prob_backoff) :
  (order_ h =? 0) = false ->
  unigrams_ h = Some v ->
  is_set (middle_builder_ h) || is_set (last_builder_ h) = true ->
  forward order ngram prob backoff h
  = match lookup_all v (tokens ngram) with
    | inl t => Thrown (runtime_error ("ngram contains unknown unigram " ++ t)) h
    | inr ids =>
        (assert (vsize ids =? U64.add order 1) "ids.size() == order + 1" ;;
         let value := {| prob := prob; backoff := backoff |} in
         if negb (order_ h =? U64.sub (vsize (counts_ h)) 1) then
           b <- deref (middle_builder_ h) "middle_builder_" ;;
           modify (set_middle_builder_ (Some (insert b ids value)))
         else
           b <- deref (last_builder_ h) "last_builder_" ;;
           modify (set_last_builder_ (Some (insert b ids prob))))%cpp h
    end.
Proof.
  intros Ho Hv Hb. unfold forward.
  unfold bind at 1. unfold get at 1. rewrite Ho.
  unfold bind at 1. rewrite assert_holds by assumption.
  unfold bind at 1. rewrite assert_holds by (rewrite Hv; reflexivity).
  unfold bind at 1. unfold for_each_token.
  rewrite (for_each_resolve v) by assumption.
  fold (tokens ngram).
  destruct (lookup_all v (tokens ngram)); reflexivity.
Qed.

(** C4.  A gram of order 1 or more with a token that is not in the
    vocabulary.  The gram text is split at the spaces and each token is
    looked up in the vocabulary, the map of the finalized order 0.  If a
    token has no id there, the call ends with the exception "ngram
    contains unknown unigram <token>" for such a token (the first one),
    in the handler as it was after counting the gram: its builders have
    received nothing. *)
Theorem C4_unknown_unigram_stops_the_gram
  (h h1 : ngram_handler) (order declared : N) (ngram : string)
  (prob backoff : float) (vocabulary : ngram_map string prob_backoff)
  (t : string) :
  order_ h <= order ->
  1 <= order ->
  advance order h = Done tt h1 ->
  nth_error (counts_ h1) (N.to_nat order) = Some declared ->
  U64.add (observed_ h1) 1 <= declared ->
  unigrams_ h1 = Some vocabulary ->
  is_set (middle_builder_ h1) || is_set (last_builder_ h1) = true ->
  In t (tokens ngram) ->
  index vocabulary t = None ->
  exists token,
    In token (tokens ngram)
    /\ index vocabulary token = None
    /\ call order ngram prob backoff h
       = Thrown (runtime_error ("ngram contains unknown unigram " ++ token))
           (set_observed_ (U64.add (observed_ h1) 1) h1).
Proof.
  intros Hle Hpos Hadv Hc Hobs Hv Hb Hin Ht.
  destruct (lookup_all_unknown vocabulary (tokens ngram) t Hin Ht)
    as (token & Hlook & Hin' & Hnone).
  exists token. split; [assumption|]. split; [assumption|].
  destruct (call_counts_then_forwards h h1 order declared ngram
              prob backoff Hle Hadv Hc) as (Ho & _ & Hgo & _).
  rewrite (Hgo Hobs).
  rewrite (forward_higher _ order ngram prob backoff vocabulary);
    try assumption.
  - rewrite Hlook. reflexivity.
  - apply N.eqb_neq. cbv zeta in Ho. rewrite Ho. lia.
Qed.

(** C5, as amended.  The value that goes to the builder with a gram that
    passes the count.  A gram of order 0 goes to the unigram builder with
    [{prob, backoff}], whether or not order 0 is the only declared order.
    A gram of a higher order whose tokens are all known goes, with the
    ids of its tokens, to the middle builder with [{prob, backoff}] when
    its order is not the maximum declared order, and to the last builder
    with [prob] alone, the backoff dropped, when it is. *)
Theorem C5_value_forwarded_by_order
  (h h1 : ngram_handler) (order declared : N) (ngram : string)
  (prob backoff : float) :
  order_ h <= order ->
  advance order h = Done tt h1 ->
  nth_error (counts_ h1) (N.to_nat order) = Some declared ->
  U64.add (observed_ h1) 1 <= declared ->
  let h2 := set_observed_ (U64.add (observed_ h1) 1) h1 in
  let value := {| prob := prob; backoff := backoff |} in
  (order = 0 ->
   forall b, unigram_builder_ h1 = Some b ->
     call order ngram prob backoff h
     = Done tt (set_unigram_builder_ (Some (insert b ngram value)) h2))
  /\ (order <> 0 ->
      forall vocabulary ids,
        unigrams_ h1 = Some vocabulary ->
        lookup_all vocabulary (tokens ngram) = inr ids ->
        vsize ids = U64.add order 1 ->
        (order <> U64.sub (vsize (counts_ h1)) 1 ->
         forall b, middle_builder_ h1 = Some b ->
           call order ngram prob backoff h
           = Done tt (set_middle_builder_ (Some (insert b ids value)) h2))
        /\ (order = U64.sub (vsize (counts_ h1)) 1 ->
            forall b, last_builder_ h1 = Some b ->
              call order ngram prob backoff h
              = Done tt (set_last_builder_ (Some (insert b ids prob)) h2))).
Proof.
  intros Hle Hadv Hc Hobs h2 value.
  destruct (call_counts_then_forwards h h1 order declared ngram
              prob backoff Hle Hadv Hc) as (Ho & _ & Hgo & _).
  specialize (Hgo Hobs). fold h2 in Hgo, Ho. rewrite Hgo. clear Hgo.
  split.
  - intros -> b Hb.
    assert (Hz : (order_ h2 =? 0) = true) by (rewrite Ho; reflexivity).
    unfold forward. unfold bind at 1. unfold get at 1. rewrite Hz.
    exec. rewrite Hb. reflexivity.
  - intros Hpos vocabulary ids Hv Hids Hsize.
    assert (Hz : (order_ h2 =? 0) = false) by (apply N.eqb_neq; congruence).
    split.
    + intros Hmid b Hb.
      rewrite (forward_higher h2 order ngram prob backoff vocabulary);
        [|assumption|assumption|simpl; rewrite Hb; reflexivity].
      rewrite Hids. unfold bind at 1.
      rewrite assert_holds by (apply N.eqb_eq; assumption).
      rewrite Ho.
      destruct (N.eqb_spec order (U64.sub (vsize (counts_ h2)) 1)) as [E|_];
        [contradiction|].
      exec. rewrite Hb. reflexivity.
    + intros Hmax b Hb.
      rewrite (forward_higher h2 order ngram prob backoff vocabulary);
        [|assumption|assumption
         |simpl; rewrite Hb; apply orb_true_r].
      rewrite Hids. unfold bind at 1.
      rewrite assert_holds by (apply N.eqb_eq; assumption).
      rewrite Ho.
      destruct (N.eqb_spec order (U64.sub (vsize (counts_ h2)) 1)) as [_|E];
        [|contradiction].
      exec. rewrite Hb. reflexivity.
Qed.

(** C7, as amended.  Two unigrams declared and three given: the first
    two go to the unigram builder, and the exception "too many 1-grams"
    is thrown when the third, the first one beyond the declared two, is
    handled; the handler has then counted three unigrams and its builder
    holds the first two. *)
Theorem C7_third_unigram_of_two_declared_is_refused
  (h : ngram_handler) (b : unigram_builder_type) (g1 g2 g3 : string)
  (p1 b1 p2 b2 p3 b3 : float) :
  order_ h = 0 ->
  observed_ h = 0 ->
  nth_error (counts_ h) 0 = Some 2 ->
  unigram_builder_ h = Some b ->
  (call 0 g1 p1 b1 ;; call 0 g2 p2 b2)%cpp h
  = Done tt
      (set_observed_ 2
         (set_unigram_builder_
            (Some (insert (insert b g1 {| prob := p1; backoff := b1 |})
                     g2 {| prob := p2; backoff := b2 |})) h))
  /\ (call 0 g1 p1 b1 ;; call 0 g2 p2 b2 ;; call 0 g3 p3 b3)%cpp h
     = Thrown (runtime_error "too many 1-grams")
         (set_observed_ 3
            (set_unigram_builder_
               (Some (insert (insert b g1 {| prob := p1; backoff := b1 |})
                        g2 {| prob := p2; backoff := b2 |})) h)).
Proof.
  intros Ho Hobs Hc Hb.
  destruct h as [pre ord obs cnt ub ug mb lb eff]. simpl in *. subst.
  destruct cnt as [|c cnt]; [discriminate|]. inversion Hc; subst.
  split; unfold call, advance, observe, forward; exec; u64; exec; u64; exec;
    u64; exec; reflexivity.
Qed.

(** [count] never fails; the first count makes the unigram builder. *)
Lemma count_unfold (n : N) (h : ngram_handler) :
  count n h
  = Done tt
      (if vsize (counts_ h ++ [n]) =? 1 then
         let o := {| prefix := prefix_ h ++ "/0/"; num_keys := n |} in
         {| prefix_ := prefix_ h; order_ := order_ h; observed_ := observed_ h;
            counts_ := counts_ h ++ [n];
            unigram_builder_ := Some (make_builder o);
            unigrams_ := unigrams_ h; middle_builder_ := middle_builder_ h;
            last_builder_ := last_builder_ h;
            effects :=
              effects h ++ [make_directory (prefix_ h ++ "/0/");
                            builder_created unigram o]
              ++ match unigram_builder_ h with
                 | Some old => [builder_destroyed unigram (options old)]
                 | None => []
                 end |}
       else set_counts_ (counts_ h ++ [n]) h).
Proof.
  destruct h as [pre ord obs cnt ub ug mb lb eff].
  unfold count. exec.
  destruct (vsize (cnt ++ [n]) =? 1); exec; [|reflexivity].
  destruct ub; exec; rewrite <- ?app_assoc; reflexivity.
Qed.

(** What a turn of the first loop does to the handler. *)
Lemma header_line_cases (buffer : string) (h : ngram_handler) :
  match header_line buffer h with
  | Done stop h' =>
      stop = Cpp.find_is_0 buffer "\1-grams:"
      /\ if Cpp.find_is_0 buffer "ngram "
         then exists n, count n h = Done tt h'
         else h' = h
  | Thrown _ h' => h' = h
  | Faulted _ _ => False
  end.
Proof.
  unfold header_line, bind at 1.
  destruct (Cpp.find_is_0 buffer "ngram ").
  - unfold bind at 1.
    destruct (Cpp.substr buffer _ _) as [text|e]; [|reflexivity].
    cbn [lift ret]. unfold bind at 1.
    destruct (Cpp.stoul text) as [n|e]; [|reflexivity].
    cbn [lift ret handler_count ngram_handler_NGramHandler].
    rewrite count_unfold. cbn [ret]. split; [reflexivity|].
    exists n. apply count_unfold.
  - cbn. split; reflexivity.
Qed.

(** The first loop keeps what every [count] keeps. *)
Lemma read_header_keeps (I0 : ngram_handler -> Prop) :
  (forall n h, I0 h -> I0 (final (count n h))) ->
  forall lines h rest h',
    I0 h -> read_header lines h = Done rest h' -> I0 h'.
Proof.
  intros Hcount. induction lines as [|buffer lines IH]; intros h rest h' Hh.
  - cbn. intros E. inversion E. subst. assumption.
  - cbn [read_header]. unfold bind at 1.
    pose proof (header_line_cases buffer h) as Hl.
    destruct (header_line buffer h) as [stop h1|e h1|f h1]; try discriminate.
    destruct Hl as [-> Hc].
    assert (Hh1 : I0 h1).
    { destruct (Cpp.find_is_0 buffer "ngram ").
      - destruct Hc as [n Hn]. specialize (Hcount n h Hh).
        rewrite Hn in Hcount. exact Hcount.
      - subst. assumption. }
    destruct (Cpp.find_is_0 buffer "\1-grams:").
    + cbn. intros E. inversion E. subst. assumption.
    + apply IH. assumption.
Qed.

(** The first loop appends one count for each declared order. *)
Lemma read_header_counts (lines : list string) (h : ngram_handler)
  (rest : list string) (h' : ngram_handler) :
  read_header lines h = Done rest h' ->
  List.length (counts_ h')
  = (List.length (counts_ h) + declared_orders lines)%nat.
Proof.
  revert h. induction lines as [|buffer lines IH]; intros h.
  - cbn. intros E. inversion E. subst. lia.
  - cbn [read_header declared_orders]. unfold bind at 1.
    pose proof (header_line_cases buffer h) as Hl.
    destruct (header_line buffer h) as [stop h1|e h1|f h1]; try discriminate.
    destruct Hl as [-> Hc].
    assert (Hlen : List.length (counts_ h1)
                   = (List.length (counts_ h)
                      + if Cpp.find_is_0 buffer "ngram " then 1 else 0)%nat).
    { destruct (Cpp.find_is_0 buffer "ngram ").
      - destruct Hc as [n Hn]. rewrite count_unfold in Hn.
        inversion Hn as [Hh1]. clear Hn.
        destruct (vsize (counts_ h ++ [n]) =? 1); cbn;
          rewrite length_app; reflexivity.
      - subst. lia. }
    destruct (Cpp.find_is_0 buffer "\1-grams:").
    + cbn. intros E. inversion E. subst. lia.
    + intros E. rewrite (IH h1 E). lia.
Qed.

Lemma count_keeps_started (n : N) (h : ngram_handler) :
  started h -> started (final (count n h)).
Proof.
  intros [Ho Hb]. rewrite count_unfold. cbn [final].
  destruct h as [pre ord obs cnt ub ug mb lb eff]. cbn in *.
  destruct (vsize (cnt ++ [n]) =? 1) eqn:E; split; cbn; auto;
    try discriminate.
  intros _. apply Hb. intros ->. discriminate E.
Qed.

Lemma lift_keeps_state {S A} (r : result A) (s : S) : final (lift r s) = s.
Proof. destruct r; reflexivity. Qed.

(** Reading the fields of a line leaves the handler as it is. *)
Lemma fields_keeps_state {H : Type} {handler : NGramHandler H}
  (buffer : string) (h : H) :
  final (fields buffer h) = h.
Proof.
  unfold fields, bind.
  repeat match goal with
         | |- context [lift ?r ?s] =>
             let E := fresh in
             pose proof (lift_keeps_state r s) as E;
             destruct (lift r s); cbn [final] in E; subst
         end; try reflexivity.
  destruct (negb _).
  - repeat match goal with
           | |- context [lift ?r ?s] =>
               let E := fresh in
               pose proof (lift_keeps_state r s) as E;
               destruct (lift r s); cbn [final] in E; subst
           end; reflexivity.
  - reflexivity.
Qed.

(** A turn of the second loop: the line is skipped, or it starts the next
    order, or its fields go to the handler. *)
Lemma data_line_unfold {H : Type} {handler : NGramHandler H}
  (buffer : string) (order : N) (h : H) :
  data_line buffer order h
  = if (buffer =? "")%string
       || ((Cpp.at_ buffer 0 =? "\")%char && (Cpp.at_ buffer 1 =? "e")%char)
    then Done order h
    else if (Cpp.at_ buffer 0 =? "\")%char then Done (U64.add order 1) h
    else match fields buffer h with
         | Done (ngram, prob, backoff) _ =>
             (handler_call order ngram prob backoff ;; ret order)%cpp h
         | Thrown e _ => Thrown e h
         | Faulted f _ => Faulted f h
         end.
Proof.
  unfold data_line.
  destruct (_ || _); [reflexivity|].
  destruct (Ascii.eqb _ _); [reflexivity|].
  unfold bind at 1.
  pose proof (fields_keeps_state buffer h) as Hf.
  destruct (fields buffer h) as [[[ngram prob] backoff] h1|e h1|f h1];
    cbn [final] in Hf; subst h1; reflexivity.
Qed.

(** The second loop keeps what every call of the handler keeps. *)
Lemma read_data_keeps (I : ngram_handler -> Prop) :
  (forall order ngram prob backoff h h',
     I h -> call order ngram prob backoff h = Done tt h' -> I h') ->
  forall lines order h h',
    I h -> read_data lines order h = Done tt h' -> I h'.
Proof.
  intros Hcall. induction lines as [|buffer lines IH]; intros order h h' Hh.
  - cbn. intros E. inversion E. subst. assumption.
  - cbn [read_data]. unfold bind at 1. rewrite data_line_unfold.
    destruct (_ || _); [apply IH; assumption|].
    destruct (Ascii.eqb _ _); [apply IH; assumption|].
    destruct (fields buffer h) as [[[ngram prob] backoff] h1|e h1|f h1];
      try discriminate.
    unfold bind at 1. cbn [handler_call ngram_handler_NGramHandler].
    destruct (call order ngram prob backoff h) as [[] h2|e h2|f h2] eqn:E;
      try discriminate.
    cbn [ret]. apply IH. exact (Hcall _ _ _ _ _ _ Hh E).
Qed.

Lemma call_keeps_one_order (order : N) (ngram : string) (prob backoff : float)
  (h h' : ngram_handler) :
  one_order h -> call order ngram prob backoff h = Done tt h' -> one_order h'.
Proof.
  intros [[Ho Hb] Hlen].
  destruct h as [pre ord obs cnt ub ug mb lb eff]. cbn in *. subst.
  destruct cnt as [|c [|c' cnt]]; try discriminate.
  destruct ub as [b|]; [clear Hb|exfalso; apply Hb; [discriminate|reflexivity]].
  unfold call, advance, finish_order, observe, forward. exec. u64. exec.
  repeat (innermost; exec; u64; exec); intros E; try discriminate E;
    inversion E; subst; repeat split; cbn; auto; try discriminate.
Qed.

Lemma finish_order_one_order (h : ngram_handler) :
  one_order h -> exists h', finish_order h = Faulted (vector_out_of_bounds 1) h'.
Proof.
  intros [[Ho Hb] Hlen].
  destruct h as [pre ord obs cnt ub ug mb lb eff]. cbn in *. subst.
  destruct cnt as [|c [|c' cnt]]; try discriminate.
  destruct ub as [b|]; [clear Hb|exfalso; apply Hb; [discriminate|reflexivity]].
  unfold finish_order. exec. u64. exec. eexists. reflexivity.
Qed.

Lemma build_from_arpa_unfold (fs : file_system) (arpa_file prefix : string) :
  build_from_arpa fs arpa_file prefix
  = match read_from_arpa (ifstream (fs_remove_all prefix fs) arpa_file)
            (construct prefix [remove_all prefix; make_directory prefix]) with
    | Done _ h1 =>
        match finish_order h1 with
        | Done _ h2 => Done (order h2) h2
        | Thrown e h2 => Thrown e h2
        | Faulted f h2 => Faulted f h2
        end
    | Thrown e h1 => Thrown e h1
    | Faulted f h1 => Faulted f h1
    end.
Proof.
  unfold build_from_arpa, bind.
  destruct (read_from_arpa _ _) as [[] h1|e h1|f h1]; try reflexivity.
Qed.

(** When one order is declared, the handler is at order 0 with one count
    and its unigram builder whenever the reader has ended normally. *)
Lemma read_from_arpa_one_order (lines : list string) (prefix : string)
  (world : list effect) (h1 : ngram_handler) :
  declared_orders lines = 1%nat ->
  read_from_arpa lines (construct prefix world) = Done tt h1 ->
  one_order h1.
Proof.
  intros Hd. unfold read_from_arpa, bind.
  destruct (read_header lines (construct prefix world)) as [rest h0|e h0|f h0]
    eqn:Eh; try discriminate.
  intros Er.
  apply (read_data_keeps one_order call_keeps_one_order rest 0 h0 h1);
    [|assumption].
  split.
  - apply (read_header_keeps started count_keeps_started lines
             (construct prefix world) rest h0); [|assumption].
    split; [reflexivity|]. intros C. exfalso. apply C. reflexivity.
  - rewrite (read_header_counts _ _ _ _ Eh), Hd. reflexivity.
Qed.

(** C10.  Finalizing order 0 makes the builder of order 1 and reads
    [counts_[1]] for it, whatever the number of declared orders.  With
    two or more declared orders the count is there and the middle builder
    is made with that many keys.  For a file that declares exactly one
    order no build ends normally: when the reader has come to the end of
    the file, the [finish_order] at the end of [build_from_arpa] reads
    [counts_[1]] past the end of [counts_]. *)
Theorem C10_order0_successor_reads_counts_1 :
  (forall (h : ngram_handler) (b : unigram_builder_type),
      order_ h = 0 ->
      unigram_builder_ h = Some b ->
      (2 <= List.length (counts_ h))%nat ->
      exists n h',
        nth_error (counts_ h) 1 = Some n
        /\ finish_order h = Done tt h'
        /\ middle_builder_ h'
           = Some (make_builder
                     {| prefix := prefix_ h ++ "/1"; num_keys := n |})
        /\ last_builder_ h' = last_builder_ h)
  /\ (forall (fs : file_system) (arpa_file prefix : string),
         let lines := ifstream (fs_remove_all prefix fs) arpa_file in
         declared_orders lines = 1%nat ->
         is_done (build_from_arpa fs arpa_file prefix) = false
         /\ forall h1,
              read_from_arpa lines
                (construct prefix [remove_all prefix; make_directory prefix])
              = Done tt h1 ->
              exists h2,
                finish_order h1 = Faulted (vector_out_of_bounds 1) h2
                /\ build_from_arpa fs arpa_file prefix
                   = Faulted (vector_out_of_bounds 1) h2).
Proof.
  split.
  - intros h b Ho Hb Hlen.
    destruct h as [pre ord obs cnt ub ug mb lb eff]. cbn in *. subst.
    destruct cnt as [|c [|n cnt]]; cbn in Hlen; try lia.
    exists n. unfold finish_order. exec. u64. exec.
    destruct mb; exec; eexists; repeat split.
  - intros fs arpa_file prefix lines Hd.
    rewrite build_from_arpa_unfold. fold lines.
    destruct (read_from_arpa lines _) as [[] h1|e h1|f h1] eqn:Er.
    + destruct (finish_order_one_order h1
                  (read_from_arpa_one_order _ _ _ _ Hd Er)) as [h2 E2].
      rewrite E2. split; [reflexivity|].
      intros h1' E1. inversion E1. subst h1'. exists h2. split; [assumption|].
      reflexivity.
    + split; [reflexivity|]. intros h1' E1. discriminate E1.
    + split; [reflexivity|]. intros h1' E1. discriminate E1.
Qed.

(** Looking the tokens up leaves the handler as it is. *)
Lemma for_each_keeps_state (toks : list string) (ids : list N)
  (h : ngram_handler) :
  final (for_each toks resolve ids h) = h.
Proof.
  revert ids. induction toks as [|t rest IH]; intros ids; [reflexivity|].
  cbn [for_each]. unfold bind at 1. unfold resolve at 1.
  destruct (negb (t =? "")%string).
  - exec. destruct (unigrams_ h) as [v|]; exec; [|reflexivity].
    destruct (index v t); exec; [apply IH|reflexivity].
  - exec. apply IH.
Qed.

(** [forward] changes nothing but the builder that takes the gram. *)
Lemma forward_frame (order : N) (ngram : string) (prob backoff : float)
  (h : ngram_handler) :
  let h' := final (forward order ngram prob backoff h) in
  prefix_ h' = prefix_ h /\ order_ h' = order_ h /\ observed_ h' = observed_ h
  /\ counts_ h' = counts_ h /\ unigrams_ h' = unigrams_ h
  /\ effects h' = effects h
  /\ is_set (unigram_builder_ h') = is_set (unigram_builder_ h)
  /\ is_set (middle_builder_ h') = is_set (middle_builder_ h)
  /\ is_set (last_builder_ h') = is_set (last_builder_ h)
  /\ option_map options (unigram_builder_ h')
     = option_map options (unigram_builder_ h)
  /\ option_map options (middle_builder_ h')
     = option_map options (middle_builder_ h)
  /\ option_map options (last_builder_ h')
     = option_map options (last_builder_ h).
Proof.
  destruct h as [pre ord obs cnt ub ug mb lb eff].
  unfold forward. exec.
  destruct (ord =? 0); exec.
  - repeat (innermost; exec); repeat split.
  - destruct (is_set mb || is_set lb || NDEBUG); exec; [|repeat split].
    destruct (is_set ug || NDEBUG); exec; [|repeat split].
    unfold for_each_token.
    match goal with
    | |- context [for_each ?t resolve ?i ?s] =>
        pose proof (for_each_keeps_state t i s) as Hk;
        destruct (for_each t resolve i s) as [ids s'|e s'|f s'];
        cbn [final] in Hk; subst s'
    end; exec; try (repeat split; fail).
    repeat (innermost; exec); repeat split.
Qed.

Lemma ends_bind {S A B} (I I' Q : S -> Prop) (m : M S A) (k : A -> M S B)
  (s : S) :
  ends I' Q (m s) ->
  (forall a s', I' s' -> ends I Q (k a s')) ->
  ends I Q (bind m k s).
Proof.
  intros Hm Hk. unfold bind. destruct (m s); cbn in *; auto.
Qed.

Section ReaderRule.

Context {H : Type} {handler : NGramHandler H}.

Variables I Q : H -> Prop.

Hypothesis I_Q : forall h, I h -> Q h.
Hypothesis count_rule : forall n h, I h -> ends I Q (handler_count n h).
Hypothesis call_rule :
  forall order ngram prob backoff h,
    I h -> ends I Q (handler_call order ngram prob backoff h).

Lemma lift_rule {A} (r : result A) (h : H) : I h -> ends I Q (lift r h).
Proof. intros Hh. destruct r; cbn; auto. Qed.

Lemma header_line_rule (buffer : string) (h : H) :
  I h -> ends I Q (header_line buffer h).
Proof.
  intros Hh. unfold header_line.
  apply (ends_bind I I Q); [|intros; assumption].
  destruct (Cpp.find_is_0 buffer "ngram "); [|assumption].
  apply (ends_bind I I Q); [apply lift_rule; assumption|]. intros text h1 H1.
  apply (ends_bind I I Q); [apply lift_rule; assumption|]. intros n h2 H2.
  apply count_rule. assumption.
Qed.

Lemma read_header_rule (lines : list string) (h : H) :
  I h -> ends I Q (read_header lines h).
Proof.
  revert h. induction lines as [|buffer lines IH]; intros h Hh; [assumption|].
  cbn [read_header].
  apply (ends_bind I I Q); [apply header_line_rule; assumption|].
  intros stop h1 H1. destruct stop; [assumption|apply IH; assumption].
Qed.

Lemma data_line_rule (buffer : string) (order : N) (h : H) :
  I h -> ends I Q (data_line buffer order h).
Proof.
  intros Hh. rewrite data_line_unfold.
  destruct (_ || _); [assumption|].
  destruct (Ascii.eqb _ _); [assumption|].
  destruct (fields buffer h) as [[[ngram prob] backoff] h1|e h1|f h1];
    cbn; auto.
  apply (ends_bind I I Q); [apply call_rule; assumption|].
  intros; assumption.
Qed.

Lemma read_data_rule (lines : list string) (order : N) (h : H) :
  I h -> ends I Q (read_data lines order h).
Proof.
  revert order h. induction lines as [|buffer lines IH]; intros order h Hh;
    [assumption|].
  cbn [read_data].
  apply (ends_bind I I Q); [apply data_line_rule; assumption|].
  intros order' h1 H1. apply IH. assumption.
Qed.

(** What holds when the handler is made and is kept by [count] and by
    [operator()] holds when [read_from_arpa] returns; what holds when
    one of them ends badly holds when [read_from_arpa] ends badly. *)
Lemma read_from_arpa_rule (lines : list string) (h : H) :
  I h -> ends I Q (read_from_arpa lines h).
Proof.
  intros Hh. unfold read_from_arpa.
  apply (ends_bind I I Q); [apply read_header_rule; assumption|].
  intros rest h1 H1. apply read_data_rule. assumption.
Qed.

End ReaderRule.

Lemma ends_final {S A} (J : S -> Prop) (o : outcome S A) :
  ends J J o <-> J (final o).
Proof. destruct o; reflexivity. Qed.




Lemma observe_frame (order : N) (h : ngram_handler) :
  let h' := final (observe order h) in
  prefix_ h' = prefix_ h /\ order_ h' = order_ h /\ counts_ h' = counts_ h
  /\ unigrams_ h' = unigrams_ h /\ effects h' = effects h
  /\ unigram_builder_ h' = unigram_builder_ h
  /\ middle_builder_ h' = middle_builder_ h
  /\ last_builder_ h' = last_builder_ h.
Proof.
  destruct h as [pre ord obs cnt ub ug mb lb eff].
  unfold observe. exec. repeat (innermost; exec); repeat split.
Qed.




(** [operator()] leaves the handler at the higher of its order and the
    order of the tuple. *)
Lemma call_order (order : N) (ngram : string) (prob backoff : float)
  (h h' : ngram_handler) :
  call order ngram prob backoff h = Done tt h' ->
  order_ h' = N.max (order_ h) order.
Proof.
  rewrite call_unfold.
  destruct (advance order h) as [[] h1|e h1|f h1] eqn:Ea; try discriminate.
  assert (H1 : order_ h1 = N.max (order_ h) order).
  { revert Ea. unfold advance. exec.
    destruct (N.ltb_spec (order_ h) order) as [Hlt|Hge].
    - destruct (finish_order h) as [[] hf|e hf|f hf]; exec; intros E;
        inversion E. cbn. lia.
    - intros E. inversion E. subst. lia. }
  pose proof (observe_frame order h1) as Ho. cbv zeta in Ho.
  destruct (observe order h1) as [[] h2|e h2|f h2]; try discriminate.
  cbn [final] in Ho. destruct Ho as (_ & Ho & _).
  pose proof (forward_frame order ngram prob backoff h2) as Hf.
  cbv zeta in Hf. destruct Hf as (_ & Hf & _).
  intros E. rewrite E in Hf. cbn [final] in Hf. congruence.
Qed.







Lemma created_app (t l : list effect) :
  created (t ++ l) = (created t ++ created l)%list.
Proof.
  induction t as [|e t IH]; [reflexivity|].
  destruct e; cbn; rewrite IH; reflexivity.
Qed.

Lemma written_app (t l : list effect) :
  written (t ++ l) = (written t ++ written l)%list.
Proof.
  induction t as [|e t IH]; [reflexivity|].
  destruct e; cbn; rewrite IH; reflexivity.
Qed.

Lemma orderly_snoc (t : list effect) (e : effect) :
  orderly t -> legal t e -> orderly (t ++ [e]).
Proof.
  intros Ht He past e' rest Hsplit.
  destruct (exists_last (l := e' :: rest) ltac:(discriminate))
    as (front & x & Hx).
  rewrite Hx, app_assoc in Hsplit.
  apply app_inj_tail in Hsplit. destruct Hsplit as [Hfront ->].
  destruct front as [|e'' front]; cbn in Hx; inversion Hx; subst e'.
  - rewrite app_nil_r in Hfront. subst t. assumption.
  - subst rest. apply (Ht past e'' front). assumption.
Qed.

Lemma released_app_l (t l : list effect) :
  unigram_released t -> unigram_released (t ++ l).
Proof. intros [o Ho]. exists o. apply in_or_app. left. assumption. Qed.

Lemma released_here (t : list effect) (o : options_type) :
  unigram_released (t ++ [builder_destroyed unigram o]).
Proof. exists o. apply in_or_app. right. left. reflexivity. Qed.

(** In an orderly run at most the last builder constructed is unwritten,
    at every moment. *)
Lemma orderly_one_unwritten (t : list effect) :
  orderly t ->
  forall past rest, t = (past ++ rest)%list ->
    created past = written past
    \/ exists id, created past = (written past ++ [id])%list.
Proof.
  intros Ht past. induction past as [|e past IH] using rev_ind; intros rest E.
  - left. reflexivity.
  - rewrite <- app_assoc in E. cbn in E.
    specialize (IH _ E). pose proof (Ht _ _ _ E) as He.
    rewrite created_app, written_app.
    destruct e; cbn in *; rewrite ?app_nil_r; try assumption.
    + destruct He as [He _]. right. exists (k, o). rewrite He. reflexivity.
    + left. assumption.
Qed.

Lemma nth_error_nil_some {A} (i : nat) (x : A) : nth_error [] i <> Some x.
Proof. destruct i; discriminate. Qed.

Lemma released_app_r (t l : list effect) (o : options_type) :
  In (builder_destroyed unigram o) l -> unigram_released (t ++ l).
Proof. intros Hin. exists o. apply in_or_app. right. assumption. Qed.

(** The unigram builder is gone after the effects of the goal. *)
Ltac released :=
  solve [ assumption
        | apply released_here
        | eapply released_app_r; cbn [In];
          repeat first [left; reflexivity | right]
        | apply released_app_l; released ].

(** The effects the handler adds are legal one after the other. *)
Ltac orderly_steps Hact :=
  repeat (apply orderly_snoc;
          [|cbn [legal];
            rewrite ?created_app, ?written_app; cbn [created written app];
            rewrite ?app_nil_r, ?Hact, <- ?app_assoc; cbn [app];
            repeat split; try reflexivity;
            try (let Hk := fresh in
                 intros Hk;
                 first [released | exfalso; apply Hk; reflexivity])]);
  try assumption.

Ltac tidy_state Hact :=
  unfold tidy, active; cbn;
  split; [solve [orderly_steps Hact]|];
  split; [rewrite ?created_app, ?written_app; cbn [created written app];
          rewrite ?app_nil_r, ?Hact, <- ?app_assoc; cbn [app];
          reflexivity|];
  split; [lia|];
  split; [intros _; try released
         |try (intros ->; exfalso;
               match goal with
               | E : nth_error [] _ = Some _ |- _ =>
                   exact (nth_error_nil_some _ _ E)
               end);
          try (intros _; reflexivity)].

Ltac tidy_leaf Hact :=
  cbn [ends];
  first
    [ solve [orderly_steps Hact]
    | split; [tidy_state Hact|cbn; released] ].

(** [finish_order] keeps the handler tidy, and leaves it without a
    unigram builder; when it ends badly the effects are still orderly. *)
Lemma finish_order_tidy (h : ngram_handler) :
  tidy h ->
  ends (fun h' => tidy h' /\ unigram_released (effects h'))
    (fun h' => orderly (effects h')) (finish_order h).
Proof.
  intros (Hord & Hact & Hone & Hgone & Hempty).
  destruct h as [pre ord obs cnt ub ug mb lb eff].
  unfold active in *. cbn in *.
  assert (Hrel : ord <> 0 -> unigram_released eff) by auto.
  destruct (N.eqb_spec ord 0) as [Hz|Hnz];
    [clear Hrel|specialize (Hrel Hnz)];
    destruct ub as [ub|], mb as [mb|], lb as [lb|]; cbn in Hone; try lia;
    rewrite ?app_nil_r in Hact;
    unfold finish_order; exec;
    try (destruct (N.eqb_spec ord 0); [contradiction|]; exec);
    try (destruct (N.eqb_spec ord 0); [|contradiction]; exec);
    repeat (innermost; exec).
  all: tidy_leaf Hact.
Qed.

Lemma orderly_nil : orderly [].
Proof. intros past e rest E. destruct past; discriminate. Qed.

(** The handler as it is made is tidy. *)
Lemma construct_tidy (prefix : string) :
  tidy (construct prefix [remove_all prefix; make_directory prefix]).
Proof.
  unfold tidy, active. cbn. repeat split; auto; try lia.
  - change [remove_all prefix; make_directory prefix]
      with (([] ++ [remove_all prefix]) ++ [make_directory prefix])%list.
    repeat apply orderly_snoc; cbn; auto using orderly_nil.
  - intros [H|[H|H]]; contradiction.
Qed.

Lemma count_tidy (n : N) (h : ngram_handler) :
  tidy h -> ends tidy (fun h' => orderly (effects h')) (count n h).
Proof.
  intros (Hord & Hact & Hone & Hgone & Hempty).
  rewrite count_unfold. cbn [ends].
  destruct h as [pre ord obs cnt ub ug mb lb eff].
  unfold active in *. cbn in *.
  destruct cnt as [|c cnt].
  - specialize (Hempty eq_refl).
    destruct ub as [ub|], mb as [mb|], lb as [lb|]; try discriminate.
    cbn in Hact. rewrite app_nil_r in Hact.
    cbn.
    change (eff ++ [make_directory (pre ++ "/0/");
                    builder_created unigram
                      {| prefix := pre ++ "/0/"; num_keys := n |}])%list
      with (eff ++ [make_directory (pre ++ "/0/")]
                ++ [builder_created unigram
                      {| prefix := pre ++ "/0/"; num_keys := n |}])%list.
    rewrite app_assoc.
    unfold tidy, active; cbn.
    split; [solve [orderly_steps Hact]|].
    split; [rewrite ?created_app, ?written_app; cbn [created written app];
            rewrite ?app_nil_r, ?Hact; reflexivity|].
    split; [lia|]. split; [|discriminate].
    intros Hp. repeat apply released_app_l. apply Hgone.
    destruct Hp as [Hp|[Hp|Hp]]; auto.
  - assert (E : (vsize ((c :: cnt) ++ [n]) =? 1) = false).
    { apply N.eqb_neq. unfold vsize. cbn [List.length app].
      rewrite length_app. cbn. lia. }
    rewrite E.
    unfold tidy, active; cbn. repeat split; auto. discriminate.
Qed.

(** Tidiness looks at the effects, at the order, at the counts and at
    the options of the builders only. *)
Lemma tidy_frame (h h' : ngram_handler) :
  effects h' = effects h ->
  order_ h' = order_ h ->
  counts_ h' = counts_ h ->
  option_map options (unigram_builder_ h')
  = option_map options (unigram_builder_ h) ->
  option_map options (middle_builder_ h')
  = option_map options (middle_builder_ h) ->
  option_map options (last_builder_ h')
  = option_map options (last_builder_ h) ->
  tidy h -> tidy h'.
Proof.
  intros He Ho Hc Hu Hm Hl (Hord & Hact & Hone & Hgone & Hempty).
  assert (Ha : active h' = active h).
  { unfold active.
    destruct (unigram_builder_ h'), (unigram_builder_ h),
      (middle_builder_ h'), (middle_builder_ h),
      (last_builder_ h'), (last_builder_ h); cbn in *; congruence. }
  unfold tidy. rewrite He, Ho, Hc, Ha. repeat split; auto.
  intros Hp. apply Hgone.
  destruct Hp as [Hp|[Hp|Hp]]; auto.
  - right. left. intros E. apply Hp. rewrite E in Hm.
    destruct (middle_builder_ h'); [discriminate|reflexivity].
  - right. right. intros E. apply Hp. rewrite E in Hl.
    destruct (last_builder_ h'); [discriminate|reflexivity].
Qed.

Lemma advance_tidy (order : N) (h : ngram_handler) :
  tidy h -> ends tidy (fun h' => orderly (effects h')) (advance order h).
Proof.
  intros Hh. unfold advance. exec.
  destruct (order_ h <? order); [|exact Hh].
  pose proof (finish_order_tidy h Hh) as Hf.
  destruct (finish_order h) as [[] h1|e h1|f h1]; cbn [ends] in *; auto.
  destruct Hf as [(Hord & Hact & Hone & Hgone & Hempty) Hrel].
  exec. destruct h1. unfold tidy, active in *. cbn in *.
  repeat split; auto.
Qed.

Lemma call_tidy (order : N) (ngram : string) (prob backoff : float)
  (h : ngram_handler) :
  tidy h ->
  ends tidy (fun h' => orderly (effects h'))
    (call order ngram prob backoff h).
Proof.
  intros Hh. rewrite call_unfold.
  pose proof (advance_tidy order h Hh) as Ha.
  destruct (advance order h) as [[] h1|e h1|f h1]; cbn [ends] in *; auto.
  pose proof (observe_frame order h1) as Ho. cbv zeta in Ho.
  destruct Ho as (_ & Ho1 & Ho2 & _ & Ho3 & Ho4 & Ho5 & Ho6).
  assert (H2 : tidy (final (observe order h1))).
  { apply (tidy_frame h1); auto; congruence. }
  destruct (observe order h1) as [[] h2|e h2|f h2]; cbn [ends final] in *;
    try (destruct H2 as [H2 _]; exact H2).
  pose proof (forward_frame order ngram prob backoff h2) as Hf.
  cbv zeta in Hf.
  destruct Hf as (_ & Hf1 & _ & Hf2 & _ & Hf3 & _ & _ & _ & Hf4 & Hf5 & Hf6).
  assert (H3 : tidy (final (forward order ngram prob backoff h2))).
  { apply (tidy_frame h2); auto. }
  destruct (forward order ngram prob backoff h2) as [[] h3|e h3|f h3];
    cbn [ends final] in *;
    [exact H3|destruct H3 as [H3 _]; exact H3|destruct H3 as [H3 _]; exact H3].
Qed.

(** The effects of every build are orderly, however it ends. *)
Lemma build_from_arpa_orderly (fs : file_system) (arpa_file prefix : string) :
  orderly (effects (final (build_from_arpa fs arpa_file prefix))).
Proof.
  rewrite build_from_arpa_unfold.
  pose proof (read_from_arpa_rule tidy (fun h' => orderly (effects h'))
                ltac:(intros h [H _]; exact H) count_tidy call_tidy
                (ifstream (fs_remove_all prefix fs) arpa_file)
                (construct prefix [remove_all prefix; make_directory prefix])
                (construct_tidy prefix)) as Hr.
  destruct (read_from_arpa _ _) as [[] h1|e h1|f h1]; cbn [ends final] in *;
    auto.
  pose proof (finish_order_tidy h1 Hr) as Hf.
  destruct (finish_order h1) as [[] h2|e h2|f h2]; cbn [ends final] in *;
    auto.
  destruct Hf as [[Hf _] _]. exact Hf.
Qed.

(** At every moment of every build at most one builder is constructed
    and not yet written (it is the one made last); a builder is
    constructed only when every builder made before it, and so the
    builder of the order before, is written; and a middle or last
    builder only when the unigram builder has been destroyed. *)
Lemma one_unwritten_builder_at_a_time
  (fs : file_system) (arpa_file prefix : string)
  (past rest : list effect) :
  effects (final (build_from_arpa fs arpa_file prefix)) = (past ++ rest)%list ->
  (created past = written past
   \/ exists id, created past = (written past ++ [id])%list)
  /\ (forall k o rest',
        rest = builder_created k o :: rest' ->
        created past = written past
        /\ (k <> unigram ->
            exists o0, In (builder_destroyed unigram o0) past)).
Proof.
  intros E.
  pose proof (build_from_arpa_orderly fs arpa_file prefix) as Hord.
  split.
  - exact (orderly_one_unwritten _ Hord past rest E).
  - intros k o rest' ->. exact (Hord past (builder_created k o) rest' E).
Qed.

(** The second loop never hands a tuple of an order below the handler's
    order to the handler: with the guard in front of [operator()] it
    runs as without.  (The file has fewer than 2^64 lines.) *)
Lemma reader_never_goes_back (lines : list string) (order : N)
  (h : ngram_handler) :
  order_ h <= order ->
  order + N.of_nat (List.length lines) < U64.modulus ->
  @read_data _ _ _ guarded lines order h
  = @read_data _ _ _ ngram_handler_NGramHandler lines order h.
Proof.
  revert order h. induction lines as [|buffer lines IH]; intros order h Hle Hb;
    [reflexivity|].
  cbn [List.length] in Hb.
  cbn [read_data]. unfold bind. rewrite !data_line_unfold.
  destruct (_ || _); [apply IH; lia|].
  destruct (Ascii.eqb _ _).
  - rewrite add_small by lia. apply IH; lia.
  - destruct (fields buffer h) as [[[ngram prob] backoff] h1|e h1|f h1];
      try reflexivity.
    unfold bind. cbn [handler_call guarded ngram_handler_NGramHandler].
    destruct (N.leb_spec (order_ h) order) as [_|Hlt]; [|lia].
    destruct (call order ngram prob backoff h) as [[] h2|e h2|f h2] eqn:Ec;
      try reflexivity.
    cbn [ret]. apply IH; [|lia].
    rewrite (call_order _ _ _ _ _ _ Ec). lia.
Qed.

End HandlerFacts.

(** ** Numerals: [std::to_string] and [std::stoul] *)

Section NumeralFacts.

#[local] Arguments N.mul : simpl never.
#[local] Arguments N.add : simpl never.

Lemma digits_of_numeral (d : Decimal.uint) (acc : N) (seen : nat) :
  Cpp.digits acc seen (NilEmpty.string_of_uint d)
  = (numeral_value acc d, (seen + Decimal.nb_digits d)%nat).
Proof.
  revert acc seen.
  induction d; intros acc seen; cbn [NilEmpty.string_of_uint Cpp.digits
    numeral_value Decimal.nb_digits];
    try match goal with
        | |- context [Cpp.digit ?c] =>
            let v := eval vm_compute in (Cpp.digit c) in
            change (Cpp.digit c) with v
        end; cbv iota beta;
    rewrite ?IHd; apply injective_projections; cbn [fst snd];
    try lia; f_equal; lia.
Qed.

Lemma numeral_value_pos (d : Decimal.uint) (p : positive) :
  numeral_value (Npos p) d = Npos (Pos.of_uint_acc d p).
Proof.
  revert p. induction d; intros p; cbn [numeral_value Pos.of_uint_acc];
    [reflexivity|..];
    match goal with
    | |- numeral_value ?a _ = N.pos (Pos.of_uint_acc _ ?q) =>
        replace a with (Npos q) by lia
    end; apply IHd.
Qed.

Lemma numeral_value_of_uint (d : Decimal.uint) :
  numeral_value 0 d = N.of_uint d.
Proof.
  unfold N.of_uint.
  induction d; cbn [numeral_value Pos.of_uint]; [reflexivity|exact IHd|..];
    match goal with
    | |- numeral_value ?a _ = N.pos (Pos.of_uint_acc _ ?q) =>
        replace a with (Npos q) by lia
    end; apply numeral_value_pos.
Qed.

Lemma to_uint_nonnil (n : N) : N.to_uint n <> Decimal.Nil.
Proof.
  destruct n; [discriminate|apply Unsigned.to_uint_nonnil].
Qed.

(** [std::stoul] reads back what [std::to_string] prints. *)
Lemma stoul_to_string (n : N) :
  n < U64.modulus -> Cpp.stoul (Cpp.to_string n) = Value n.
Proof.
  intros Hn. unfold Cpp.to_string, NilZero.string_of_uint.
  pose proof (to_uint_nonnil n) as Hnil.
  pose proof (DecimalN.Unsigned.of_to n) as Hback.
  rewrite <- numeral_value_of_uint in Hback.
  assert (Hfit : (U64.modulus <=? n) = false) by (apply N.leb_gt; exact Hn).
  destruct (N.to_uint n) as [|d|d|d|d|d|d|d|d|d|d]; [contradiction|..];
    unfold Cpp.stoul; cbn [NilEmpty.string_of_uint Cpp.skip_space];
    match goal with
    | |- context [Cpp.isspace ?c] => change (Cpp.isspace c) with false
    end; cbv beta iota;
    match goal with
    | |- context [Cpp.digits 0 0 ?s] =>
        match type of Hback with
        | numeral_value 0 ?u = _ =>
            change s with (NilEmpty.string_of_uint u)
        end
    end;
    rewrite digits_of_numeral, Hback; cbn [Decimal.nb_digits Nat.add];
    rewrite Hfit; reflexivity.
Qed.

End NumeralFacts.

(** ** The first loop of [read_from_arpa] *)

Section HeaderFacts.

Context {FM : FloatModel} {P : Platform} {H : Type} {handler : NGramHandler H}.

#[local] Arguments Ascii.eqb : simpl never.

Lemma first_of_lacking (c : ascii) (s : string) :
  lacks c s = true -> Cpp.first_of [c] s = None.
Proof.
  induction s as [|c' s IH]; [reflexivity|].
  cbn [lacks Cpp.first_of existsb]. intros Hl.
  apply andb_prop in Hl. destruct Hl as [Hc Hs].
  apply negb_true_iff in Hc. rewrite Hc, (IH Hs). reflexivity.
Qed.

Lemma first_of_found (c : ascii) (s r : string) :
  lacks c s = true ->
  Cpp.first_of [c] (s ++ String c r) = Some (String.length s).
Proof.
  induction s as [|c' s IH]; intros Hl.
  - cbn [append Cpp.first_of existsb]. rewrite Ascii.eqb_refl. reflexivity.
  - cbn [lacks] in Hl. apply andb_prop in Hl. destruct Hl as [Hc Hs].
    apply negb_true_iff in Hc.
    cbn [append Cpp.first_of existsb String.length]. rewrite Hc, (IH Hs).
    reflexivity.
Qed.

Lemma lacks_append (c : ascii) (s r : string) :
  lacks c (s ++ r) = lacks c s && lacks c r.
Proof.
  induction s as [|c' s IH]; [reflexivity|].
  cbn [append lacks]. rewrite IH. apply andb_assoc.
Qed.

Lemma find_is_0_append (needle rest : string) :
  Cpp.find_is_0 (needle ++ rest) needle = true.
Proof.
  unfold Cpp.find_is_0.
  induction needle as [|a needle IH]; [destruct rest; reflexivity|].
  cbn [append String.prefix].
  destruct (ascii_dec a a) as [_|C]; [exact IH|contradiction].
Qed.

Lemma find_first_of_char (s : string) (c : ascii) (pos : N) :
  Cpp.find_first_of s (String c EmptyString) pos =
  if Cpp.size s <=? pos then U64.npos
  else match Cpp.first_of [c] (Cpp.drop (N.to_nat pos) s) with
       | Some i => pos + N.of_nat i
       | None => U64.npos
       end.
Proof. reflexivity. Qed.

(** X1.  A header line "ngram <label>=<count>": the handler is given the
    count that is written after the first "=", whatever the label
    between "ngram " and the "=" is; the first loop goes on. *)
Theorem X1_header_line_gives_the_count_after_the_equals_sign
  (label : string) (n : N) (h : H) :
  lacks "=" label = true ->
  n < U64.modulus ->
  Cpp.size ("ngram " ++ label ++ "=" ++ Cpp.to_string n) < U64.npos ->
  header_line ("ngram " ++ label ++ "=" ++ Cpp.to_string n) h
  = (handler_count n ;; ret false)%cpp h.
Proof.
  intros Hl Hn Hsize.
  set (text := Cpp.to_string n) in *.
  assert (Hfind : Cpp.find_first_of ("ngram " ++ label ++ "=" ++ text) "=" 0
                  = Cpp.size ("ngram " ++ label)).
  { rewrite find_first_of_char.
    destruct (N.leb_spec (Cpp.size ("ngram " ++ label ++ "=" ++ text)) 0)
      as [Hz|_].
    - rewrite !size_append in Hz. change (Cpp.size "ngram ") with 6 in Hz. lia.
    - change (Cpp.drop (N.to_nat 0) ?s) with s.
      rewrite <- append_assoc.
      change ("=" ++ text) with (String "=" text).
      rewrite first_of_found; [reflexivity|].
      rewrite lacks_append, Hl. reflexivity. }
  unfold header_line.
  rewrite find_is_0_append.
  change (Cpp.find_is_0 ("ngram " ++ label ++ "=" ++ text) "\1-grams:")
    with false.
  cbv iota. cbv zeta. rewrite Hfind.
  rewrite !size_append in Hsize.
  assert (Hnpos : U64.npos < U64.modulus) by (vm_compute; reflexivity).
  rewrite add_small by (rewrite size_append; lia).
  replace (Cpp.size ("ngram " ++ label) + 1)
    with (Cpp.size (("ngram " ++ label) ++ "="))
    by (rewrite !size_append; reflexivity).
  replace ("ngram " ++ label ++ "=" ++ text)
    with ((("ngram " ++ label) ++ "=") ++ text)
    by (rewrite !append_assoc; reflexivity).
  rewrite substr_to_end by lia.
  unfold text. unfold bind at 2. unfold lift at 1, ret at 1.
  unfold bind at 2. rewrite (stoul_to_string n Hn). reflexivity.
Qed.

(** X2.  A header line that begins with "ngram " and holds no "=":
    [find_first_of] gives [npos], [equal + 1] wraps to 0, and [stoul] is
    given the whole line, which begins with "n": the read ends with
    [std::invalid_argument] and the handler is not called. *)
Theorem X2_header_line_without_equals_sign_is_an_invalid_argument
  (rest : string) (h : H) :
  lacks "=" rest = true ->
  Cpp.size ("ngram " ++ rest) < U64.modulus ->
  header_line ("ngram " ++ rest) h = Thrown (invalid_argument "stoul") h.
Proof.
  intros Hl Hsize.
  assert (Hfind : Cpp.find_first_of ("ngram " ++ rest) "=" 0 = U64.npos).
  { rewrite find_first_of_char.
    destruct (_ <=? _); [reflexivity|].
    change (Cpp.drop (N.to_nat 0) ?s) with s.
    rewrite first_of_lacking; [reflexivity|].
    rewrite lacks_append, Hl. reflexivity. }
  unfold header_line.
  rewrite find_is_0_append.
  cbv iota. cbv zeta. rewrite Hfind.
  change (U64.add U64.npos 1) with 0.
  change 0 with (Cpp.size "") at 1.
  change ("ngram " ++ rest) with ("" ++ "ngram " ++ rest) at 1.
  rewrite substr_to_end by (unfold U64.npos; lia).
  reflexivity.
Qed.

Lemma read_header_to_the_end (lines : list string) (h : H) :
  (forall l, In l lines -> Cpp.find_is_0 l "\1-grams:" = false) ->
  match read_header lines h with
  | Done rest _ => rest = []
  | _ => True
  end.
Proof.
  revert h. induction lines as [|buffer lines IH]; intros h Hno;
    [reflexivity|].
  cbn [read_header]. unfold bind at 1.
  assert (Hb : Cpp.find_is_0 buffer "\1-grams:" = false)
    by (apply Hno; left; reflexivity).
  unfold header_line. rewrite Hb.
  unfold bind at 1.
  match goal with
  | |- context [match ?m h with _ => _ end] =>
      destruct (m h) as [[] h1|e h1|f h1]; [|exact I|exact I]
  end.
  unfold ret at 1. cbv iota.
  apply IH. intros l Hin. apply Hno. right. exact Hin.
Qed.

(** X3.  A file in which no line begins with "\1-grams:": the first
    loop takes every line, the second loop finds the stream at its end,
    and [operator()] of the handler is never called. *)
Theorem X3_without_the_unigram_marker_no_gram_is_read
  (lines : list string) (h : H) :
  (forall l, In l lines -> Cpp.find_is_0 l "\1-grams:" = false) ->
  read_from_arpa lines h = (read_header lines ;; ret tt)%cpp h.
Proof.
  intros Hno. unfold read_from_arpa, bind.
  pose proof (read_header_to_the_end lines h Hno) as Hend.
  destruct (read_header lines h) as [rest h1|e h1|f h1]; [|reflexivity..].
  subst rest. reflexivity.
Qed.

End HeaderFacts.

(** ** The second loop of [read_from_arpa] *)

Section DataFacts.

Context {FM : FloatModel} {P : Platform} {H : Type} {handler : NGramHandler H}.

#[local] Arguments Ascii.eqb : simpl never.

(** X4.  Blank lines and lines that begin with a backslash and an "e"
    (as "\end\" does) change nothing in the data part of a file: the
    second loop does to the handler what it does without them. *)
Theorem X4_blank_and_end_lines_are_passed_over
  (lines : list string) (order : N) (h : H) :
  read_data lines order h
  = read_data (filter (fun buffer => negb (passed_over buffer)) lines) order h.
Proof.
  revert order h. induction lines as [|buffer lines IH]; intros order h;
    [reflexivity|].
  cbn [filter]. destruct (passed_over buffer) eqn:Hp; cbn [negb read_data].
  - unfold bind at 1. rewrite data_line_unfold.
    unfold passed_over in Hp. rewrite Hp. apply IH.
  - unfold bind. destruct (data_line buffer order h); [apply IH|reflexivity..].
Qed.

(** X5.  A data line without any tab: both [find_first_of] give [npos],
    [first_tab + 1] wraps to 0, and the handler is given the whole line
    as the gram text, [stof] of the whole line as the probability and
    the backoff [0.0]. *)
Theorem X5_data_line_without_a_tab_is_its_own_gram_text
  (buffer : string) (order : N) (h : H) :
  tab_free buffer = true ->
  buffer <> "" ->
  (Cpp.at_ buffer 0 =? "\")%char = false ->
  Cpp.size buffer < U64.npos ->
  data_line buffer order h
  = (prob <- lift (stof buffer) ;;
     handler_call order buffer prob float_zero ;;
     ret order)%cpp h.
Proof.
  intros Hfree Hne Hback Hsize.
  assert (Hfind : forall pos, Cpp.find_first_of buffer TAB pos = U64.npos).
  { intros pos. rewrite find_first_of_TAB.
    destruct (_ <=? _); [reflexivity|].
    rewrite first_of_tab_free; [reflexivity|].
    clear - Hfree. revert buffer Hfree.
    induction (N.to_nat pos) as [|k IH]; intros s Hs; [exact Hs|].
    destruct s as [|c s]; [reflexivity|].
    cbn [Cpp.drop]. apply IH. cbn [tab_free] in Hs.
    apply andb_prop in Hs. apply Hs. }
  assert (Hwhole : forall count, Cpp.size buffer <= count ->
                                 Cpp.substr buffer 0 count = Value buffer).
  { intros count Hc.
    change buffer with ("" ++ buffer) at 1. change 0 with (Cpp.size "") at 1.
    apply substr_to_end. exact Hc. }
  unfold data_line.
  apply String.eqb_neq in Hne. rewrite Hne, Hback. cbn [orb andb].
  unfold fields. cbv zeta. rewrite !Hfind.
  change (U64.add U64.npos 1) with 0.
  change (U64.sub (U64.sub U64.npos U64.npos) 1) with U64.npos.
  rewrite !Hwhole by lia.
  rewrite N.eqb_refl. cbn [negb].
  unfold bind, lift, ret. destruct (stof buffer); reflexivity.
Qed.

End DataFacts.

(** ** What the reader gives to a handler *)

Section EmittedFacts.

Context {FM : FloatModel} {P : Platform}.

Lemma read_data_in_order (lines : list string) (order : N) (r : recorder) :
  order + N.of_nat (List.length lines) < U64.modulus ->
  exists new,
    tuples (final (read_data lines order r)) = (tuples r ++ new)%list
    /\ StronglySorted N.le (map order_of new)
    /\ Forall (fun t => order <= order_of t) new.
Proof.
  revert order r. induction lines as [|buffer lines IH]; intros order r Hb.
  - exists []. cbn. rewrite app_nil_r. repeat split; constructor.
  - cbn [List.length] in Hb.
    cbn [read_data]. unfold bind at 1. rewrite data_line_unfold.
    destruct (_ || _).
    + apply IH. lia.
    + destruct (Ascii.eqb _ _).
      * destruct (IH (U64.add order 1) r) as (new & E & Hs & Hf).
        { rewrite add_small by lia. lia. }
        exists new. split; [exact E|]. split; [exact Hs|].
        rewrite add_small in Hf by lia.
        eapply Forall_impl; [|exact Hf]. cbv beta. intros t Ht. lia.
      * pose proof (fields_keeps_state buffer r) as Hk.
        destruct (fields buffer r) as [[[ngram prob] backoff] r1|e r1|f r1];
          cbn [final] in Hk; subst r1.
        -- unfold bind at 1. cbn [handler_call recorder_NGramHandler].
           unfold modify at 1. unfold ret at 1.
           destruct (IH order
                       {| declared_counts := declared_counts r;
                          tuples := tuples r ++ [(order, ngram, prob, backoff)] |})
             as (new & E & Hs & Hf); [lia|].
           exists ((order, ngram, prob, backoff) :: new).
           split; [rewrite E; cbn [tuples]; rewrite <- app_assoc; reflexivity|].
           split.
           ++ cbn [map order_of]. constructor; [exact Hs|].
              apply Forall_map. exact Hf.
           ++ constructor; [cbn; lia|exact Hf].
        -- exists []. cbn. rewrite app_nil_r. repeat split; constructor.
        -- exists []. cbn. rewrite app_nil_r. repeat split; constructor.
Qed.

Lemma header_line_keeps_tuples (buffer : string) (r : recorder) :
  tuples (final (header_line buffer r)) = tuples r.
Proof.
  unfold header_line, bind, lift, ret, throw.
  destruct (Cpp.find_is_0 buffer "ngram "); [|reflexivity].
  destruct (Cpp.substr _ _ _); [|reflexivity].
  destruct (Cpp.stoul _); reflexivity.
Qed.

Lemma read_header_rest (lines : list string) (r : recorder) :
  match read_header lines r with
  | Done rest r' =>
      tuples r' = tuples r /\ (List.length rest <= List.length lines)%nat
  | Thrown _ r' | Faulted _ r' => tuples r' = tuples r
  end.
Proof.
  revert r. induction lines as [|buffer lines IH]; intros r.
  - cbn. split; [reflexivity|lia].
  - cbn [read_header]. unfold bind at 1.
    pose proof (header_line_keeps_tuples buffer r) as Hk.
    destruct (header_line buffer r) as [stop r1|e r1|f r1]; cbn [final] in Hk;
      try exact Hk.
    destruct stop.
    + cbn. split; [exact Hk|lia].
    + specialize (IH r1). rewrite Hk in IH.
      destruct (read_header lines r1); try exact IH.
      destruct IH as [E Hl]. split; [exact E|]. cbn [List.length]. lia.
Qed.

(** X6.  The orders of the tuples the reader gives to its handler never
    go down: every tuple has the order of the one before it, or a higher
    one.  (The file has fewer than 2^64 lines.) *)
Theorem X6_the_reader_gives_orders_that_never_go_down (lines : list string) :
  N.of_nat (List.length lines) < U64.modulus ->
  Sorted N.le (map order_of (emitted lines)).
Proof.
  intros Hb. unfold emitted, read_from_arpa, bind.
  set (r0 := {| declared_counts := []; tuples := [] |}).
  pose proof (read_header_rest lines r0) as Hh.
  destruct (read_header lines r0) as [rest r1|e r1|f r1]; cbn [final];
    try (rewrite Hh; constructor).
  destruct Hh as [E Hl].
  destruct (read_data_in_order rest 0 r1) as (new & En & Hs & _); [lia|].
  rewrite En, E. cbn [tuples r0 app].
  apply StronglySorted_Sorted. exact Hs.
Qed.

End EmittedFacts.

(** ** More on [operator()] and [finish_order] *)

Section CallFacts.

Context {FM : FloatModel} {P : Platform}.

Lemma finish_order_keeps_counts (h : ngram_handler) :
  counts_ (final (finish_order h)) = counts_ h
  /\ prefix_ (final (finish_order h)) = prefix_ h
  /\ order_ (final (finish_order h)) = order_ h.
Proof.
  destruct h as [pre ord obs cnt ub ug mb lb eff].
  unfold finish_order. exec.
  repeat (innermost; exec); repeat split.
Qed.

Lemma advance_keeps_counts (order : N) (h : ngram_handler) :
  counts_ (final (advance order h)) = counts_ h
  /\ prefix_ (final (advance order h)) = prefix_ h
  /\ order_ h <= order_ (final (advance order h)).
Proof.
  unfold advance. exec.
  destruct (N.ltb_spec (order_ h) order) as [Hlt|Hge]; exec.
  - pose proof (finish_order_keeps_counts h) as (Hc & Hp & Ho).
    destruct (finish_order h) as [[] h1|e h1|f h1]; exec; cbn [final] in *;
      rewrite ?Hc, ?Hp, ?Ho; repeat split; lia.
  - repeat split. lia.
Qed.

(** A gram of an order without a declared count is not accepted. *)
Lemma call_undeclared (order : N) (ngram : string) (prob backoff : float)
  (h : ngram_handler) :
  vsize (counts_ h) <= order ->
  is_done (call order ngram prob backoff h) = false.
Proof.
  intros Hsize. rewrite call_unfold.
  pose proof (advance_keeps_counts order h) as (Hc & _ & _).
  destruct (advance order h) as [[] h1|e h1|f h1]; [|reflexivity..].
  cbn [final] in Hc.
  unfold observe. exec.
  destruct (nth_error (counts_ h1) (N.to_nat order)) as [declared|] eqn:E;
    [|reflexivity].
  exfalso.
  assert (Hlt : (N.to_nat order < List.length (counts_ h1))%nat)
    by (apply nth_error_Some; rewrite E; discriminate).
  rewrite Hc in Hlt. unfold vsize in Hsize. lia.
Qed.

(** X7.  A gram of an order for which the header declared no count.
    [operator()] has no bounds check: when the order boundary is behind
    it, it increments [observed_] and indexes [counts_[order]] past the
    end of [counts_], before any builder is touched.  (The read is
    undefined behaviour in C++; the embedding marks it as the fault
    [vector_out_of_bounds order] and does not say what follows it.) *)
Theorem X7_gram_of_an_undeclared_order_indexes_counts_past_the_end
  (order : N) (ngram : string) (prob backoff : float)
  (h h1 : ngram_handler) :
  vsize (counts_ h) <= order ->
  advance order h = Done tt h1 ->
  nth_error (counts_ h1) (N.to_nat order) = None
  /\ call order ngram prob backoff h
     = Faulted (vector_out_of_bounds order)
         (set_observed_ (U64.add (observed_ h1) 1) h1).
Proof.
  intros Hsize Ha.
  pose proof (advance_keeps_counts order h) as (Hc & _ & _).
  rewrite Ha in Hc. cbn [final] in Hc.
  assert (Hnone : nth_error (counts_ h1) (N.to_nat order) = None).
  { apply nth_error_None. rewrite Hc. unfold vsize in Hsize. lia. }
  split; [exact Hnone|].
  rewrite call_unfold, Ha.
  destruct h1 as [pre ord obs cnt ub ug mb lb eff]. cbn in Hnone.
  unfold observe. exec. rewrite Hnone. reflexivity.
Qed.

(** X8.  Unigrams up to the declared number are all accepted: when the
    handler is at order 0 and as many unigrams are given as, with those
    already counted, do not exceed [counts_[0]], every call ends
    normally, the unigram builder has them after the ones it had, in the
    order they were given, each with its [{prob, backoff}], and
    [observed_] has gone up by their number. *)
Theorem X8_unigrams_within_the_count_are_kept_in_order
  (grams : list (string * float * float)) (h : ngram_handler)
  (b : unigram_builder_type) (declared : N) :
  order_ h = 0 ->
  unigram_builder_ h = Some b ->
  nth_error (counts_ h) 0 = Some declared ->
  declared < U64.modulus ->
  observed_ h + N.of_nat (List.length grams) <= declared ->
  unigram_calls grams h
  = Done tt
      (set_unigram_builder_
         (Some {| options := options b;
                  inserted := inserted b ++ map unigram_entry grams |})
         (set_observed_ (observed_ h + N.of_nat (List.length grams)) h)).
Proof.
  revert h b.
  induction grams as [|[[ngram prob] backoff] grams IH];
    intros h b Ho Hb Hc Hd Hn.
  - destruct h as [pre ord obs cnt ub ug mb lb eff]. cbn in *. subst.
    unfold set_unigram_builder_, set_observed_, ret. cbn.
    rewrite app_nil_r, N.add_0_r. destruct b. reflexivity.
  - cbn [List.length] in Hn. rewrite Nat2N.inj_succ in Hn.
    cbn [unigram_calls]. unfold bind at 1.
    destruct h as [pre ord obs cnt ub ug mb lb eff].
    cbn [order_ unigram_builder_ counts_ observed_] in Ho, Hb, Hc, Hn.
    subst ord ub.
    destruct cnt as [|c cnt]; [discriminate|].
    cbn [nth_error] in Hc. inversion Hc. subst c. clear Hc.
    assert (Hcall :
      call 0 ngram prob backoff
        {| prefix_ := pre; order_ := 0; observed_ := obs;
           counts_ := declared :: cnt; unigram_builder_ := Some b;
           unigrams_ := ug; middle_builder_ := mb; last_builder_ := lb;
           effects := eff |}
      = Done tt
        {| prefix_ := pre; order_ := 0; observed_ := obs + 1;
           counts_ := declared :: cnt;
           unigram_builder_ :=
             Some (insert b ngram {| prob := prob; backoff := backoff |});
           unigrams_ := ug; middle_builder_ := mb; last_builder_ := lb;
           effects := eff |}).
    { unfold call, advance, observe, forward. exec.
      rewrite add_small by lia.
      destruct (N.ltb_spec declared (obs + 1)) as [C|_]; [lia|]. exec.
      reflexivity. }
    rewrite Hcall.
    rewrite (IH _ (insert b ngram {| prob := prob; backoff := backoff |}));
      [|first [reflexivity|exact Hd|cbn [observed_]; lia]..].
    unfold set_unigram_builder_, set_observed_, insert.
    cbn [prefix_ order_ observed_ counts_ unigram_builder_ unigrams_
         middle_builder_ last_builder_ effects options inserted
         List.length map].
    rewrite <- app_assoc. cbn [app unigram_entry]. rewrite Nat2N.inj_succ.
    replace (obs + 1 + N.of_nat (List.length grams))
      with (obs + N.succ (N.of_nat (List.length grams))) by lia.
    reflexivity.
Qed.

(** X9.  [order()] never goes down: whatever the order of the gram
    given and however the call ends, the current order afterwards is at
    least what it was; after a call that ends normally it is the larger
    of the order before and the order of the gram. *)
Theorem X9_the_current_order_never_goes_down
  (order : N) (ngram : string) (prob backoff : float) (h : ngram_handler) :
  let o := call order ngram prob backoff h in
  order_ h <= order_ (final o)
  /\ (is_done o = true -> order_ (final o) = N.max (order_ h) order).
Proof.
  cbv zeta. split.
  - rewrite call_unfold.
    pose proof (advance_keeps_counts order h) as (_ & _ & Ha).
    destruct (advance order h) as [[] h1|e h1|f h1]; cbn [final] in *;
      try exact Ha.
    pose proof (observe_frame order h1) as Hob. cbv zeta in Hob.
    destruct Hob as (_ & Hob & _).
    destruct (observe order h1) as [[] h2|e h2|f h2]; cbn [final] in *;
      try (rewrite Hob; exact Ha).
    pose proof (forward_frame order ngram prob backoff h2) as Hf.
    cbv zeta in Hf. destruct Hf as (_ & Hf & _).
    rewrite Hf, Hob. exact Ha.
  - destruct (call order ngram prob backoff h) as [[] h'|e h'|f h'] eqn:E;
      try discriminate.
    intros _. exact (call_order _ _ _ _ _ _ E).
Qed.

Lemma lookup_all_length (v : ngram_map string prob_backoff)
  (toks : list string) (ids : list N) :
  lookup_all v toks = inr ids -> List.length ids = List.length toks.
Proof.
  revert ids. induction toks as [|t toks IH]; intros ids; cbn [lookup_all].
  - intros E. inversion E. reflexivity.
  - destruct (index v t); [|discriminate].
    destruct (lookup_all v toks) as [u|l]; [discriminate|].
    intros E. inversion E. cbn [List.length]. rewrite (IH l eq_refl).
    reflexivity.
Qed.

(** X10.  With [assert] compiled in, a gram reaches a middle or last
    builder only when it has exactly [order + 1] tokens: after a call
    that ends normally at an order above 0, the number of tokens of the
    gram text is [order + 1]. *)
Theorem X10_with_assertions_a_higher_gram_has_order_plus_one_tokens
  (order : N) (ngram : string) (prob backoff : float) (h h' : ngram_handler) :
  NDEBUG = false ->
  call order ngram prob backoff h = Done tt h' ->
  order_ h' <> 0 ->
  N.of_nat (List.length (tokens ngram)) = U64.add order 1.
Proof.
  intros Hdebug. rewrite call_unfold.
  destruct (advance order h) as [[] h1|e h1|f h1]; try discriminate.
  pose proof (observe_frame order h1) as Hob. cbv zeta in Hob.
  destruct (observe order h1) as [[] h2|e h2|f h2]; try discriminate.
  cbn [final] in Hob. clear Hob.
  intros Ef Hnz.
  pose proof (forward_frame order ngram prob backoff h2) as Hfr.
  cbv zeta in Hfr. rewrite Ef in Hfr. cbn [final] in Hfr.
  destruct Hfr as (_ & Hsame & _). rewrite Hsame in Hnz.
  apply N.eqb_neq in Hnz.
  destruct (unigrams_ h2) as [v|] eqn:Ev.
  - destruct (is_set (middle_builder_ h2) || is_set (last_builder_ h2)) eqn:Eb.
    + rewrite (forward_higher h2 order ngram prob backoff v Hnz Ev Eb) in Ef.
      destruct (lookup_all v (tokens ngram)) as [u|ids] eqn:El;
        [discriminate|].
      unfold bind at 1 in Ef. unfold assert in Ef. rewrite Hdebug in Ef.
      rewrite orb_false_r in Ef.
      destruct (N.eqb_spec (vsize ids) (U64.add order 1)) as [Hsz|_];
        [|discriminate].
      rewrite <- Hsz. unfold vsize.
      rewrite (lookup_all_length _ _ _ El). reflexivity.
    + exfalso. revert Ef. unfold forward. exec. rewrite Hnz, Eb, Hdebug.
      exec. discriminate.
  - exfalso. revert Ef. unfold forward. exec. rewrite Hnz, Ev, Hdebug.
    exec. destruct (_ || _); exec; discriminate.
Qed.

End CallFacts.

(** ** Finalizing a middle order *)

Section TransitionFacts.

Context {FM : FloatModel} {P : Platform}.

(** X11.  Finalizing a middle order: the middle builder is written and
    the builder of the next order is made in the directory
    [prefix/<order + 1>] with [counts_[order_ + 1]] keys; it is a middle
    builder when more orders come after it and the last builder when the
    next order is the final declared order. *)
Theorem X11_finalizing_a_middle_order_makes_the_next_builder
  (h : ngram_handler) (b : middle_builder_type) (n : N) :
  order_ h <> 0 ->
  order_ h < U64.sub (vsize (counts_ h)) 1 ->
  middle_builder_ h = Some b ->
  last_builder_ h = None ->
  nth_error (counts_ h) (N.to_nat (U64.add (order_ h) 1)) = Some n ->
  let next :=
    {| prefix := prefix_ h ++ "/" ++ Cpp.to_string (U64.add (order_ h) 1);
       num_keys := n |} in
  let written_first :=
    builder_written middle (options b) (middle_table (write b)) in
  exists h',
    finish_order h = Done tt h'
    /\ order_ h' = order_ h /\ observed_ h' = 0
    /\ counts_ h' = counts_ h /\ unigrams_ h' = unigrams_ h
    /\ if U64.add (order_ h) 1 <? U64.sub (vsize (counts_ h)) 1
       then middle_builder_ h' = Some (make_builder next)
            /\ last_builder_ h' = None
            /\ effects h'
               = (effects h
                  ++ [written_first; make_directory (prefix next);
                      builder_created middle next;
                      builder_destroyed middle (options b)])%list
       else middle_builder_ h' = None
            /\ last_builder_ h' = Some (make_builder next)
            /\ effects h'
               = (effects h
                  ++ [written_first; builder_destroyed middle (options b);
                      make_directory (prefix next);
                      builder_created last next])%list.
Proof.
  intros Hnz Hlt Hb Hl Hn.
  destruct h as [pre ord obs cnt ub ug mb lb eff]. cbn in *. subst mb lb.
  apply N.eqb_neq in Hnz. apply N.ltb_lt in Hlt.
  unfold finish_order. exec. rewrite Hnz, Hlt. exec.
  destruct (U64.add ord 1 <? U64.sub (vsize cnt) 1); exec; rewrite Hn; exec;
    eexists; (split; [reflexivity|]); cbn; rewrite <- ?app_assoc;
    repeat split.
Qed.

End TransitionFacts.

(** ** Whole builds *)

Section PipelineFacts.

Context {FM : FloatModel} {P : Platform}.

Lemma count_keeps_prefix (n : N) (h : ngram_handler) :
  prefix_ (final (count n h)) = prefix_ h
  /\ order_ (final (count n h)) = order_ h
  /\ last_builder_ (final (count n h)) = last_builder_ h.
Proof.
  rewrite count_unfold. cbn [final].
  destruct (vsize (counts_ h ++ [n]) =? 1); repeat split.
Qed.

Lemma call_keeps_prefix (order : N) (ngram : string) (prob backoff : float)
  (h : ngram_handler) :
  prefix_ (final (call order ngram prob backoff h)) = prefix_ h
  /\ counts_ (final (call order ngram prob backoff h)) = counts_ h.
Proof.
  rewrite call_unfold.
  pose proof (advance_keeps_counts order h) as (Hc & Hp & _).
  destruct (advance order h) as [[] h1|e h1|f h1]; cbn [final] in *;
    try (split; assumption).
  pose proof (observe_frame order h1) as Hob. cbv zeta in Hob.
  destruct Hob as (Hp1 & _ & Hc1 & _).
  destruct (observe order h1) as [[] h2|e h2|f h2]; cbn [final] in *;
    try (rewrite Hp1, Hc1; split; assumption).
  pose proof (forward_frame order ngram prob backoff h2) as Hf.
  cbv zeta in Hf. destruct Hf as (Hp2 & _ & _ & Hc2 & _).
  rewrite Hp2, Hc2, Hp1, Hc1. split; assumption.
Qed.

Lemma read_from_arpa_keeps_prefix (lines : list string) (h : ngram_handler) :
  prefix_ (final (read_from_arpa lines h)) = prefix_ h.
Proof.
  apply (ends_final (fun h' => prefix_ h' = prefix_ h)).
  apply read_from_arpa_rule; auto.
  - intros n h0 E. apply ends_final.
    cbn [handler_count ngram_handler_NGramHandler].
    destruct (count_keeps_prefix n h0) as (Hp & _). rewrite Hp. exact E.
  - intros order ngram prob backoff h0 E. apply ends_final.
    cbn [handler_call ngram_handler_NGramHandler].
    destruct (call_keeps_prefix order ngram prob backoff h0) as (Hp & _).
    rewrite Hp. exact E.
Qed.

(** What the handler holds when [finish_order] has ended normally. *)
Lemma finish_order_active (h h' : ngram_handler) :
  tidy h ->
  finish_order h = Done tt h' ->
  if (order_ h =? 0) || (order_ h <? U64.sub (vsize (counts_ h)) 1)
  then exists k c,
         k <> unigram
         /\ nth_error (counts_ h) (N.to_nat (U64.add (order_ h) 1)) = Some c
         /\ active h'
            = [(k, {| prefix := prefix_ h ++ "/"
                                ++ Cpp.to_string (U64.add (order_ h) 1);
                      num_keys := c |})]
  else active h' = [].
Proof.
  intros (_ & _ & Hlen & _ & _).
  destruct h as [pre ord obs cnt ub ug mb lb eff].
  unfold active in Hlen.
  destruct ub as [ub|], mb as [mb|], lb as [lb|]; cbn in Hlen; try lia;
    clear Hlen; unfold finish_order; exec;
    (destruct (ord =? 0) eqn:E0; exec;
     [|destruct (ord <? U64.sub (vsize cnt) 1) eqn:E1; exec]);
    repeat (innermost; exec); intros E; try discriminate E;
    inversion E; subst; clear E; unfold active; cbn;
    try reflexivity;
    (eexists; eexists; (split; [|split; reflexivity]); discriminate).
Qed.

(** X12.  What a build that returns has written.  When [build_from_arpa]
    returns [n], its last [finish_order] ran at order [n].  If [n] is
    above 0 and is not below [counts_.size() - 1], every builder that was
    constructed has been written.  If [n] is 0 or below
    [counts_.size() - 1], a file that ends before its declared orders
    do, the builder of order [n + 1] has been constructed in
    [prefix/<n + 1>] with [counts_[n + 1]] keys and is never written. *)
Theorem X12_a_build_that_stops_early_leaves_the_next_builder_unwritten
  (fs : file_system) (arpa_file out : string) (n : N) (h : ngram_handler) :
  build_from_arpa fs arpa_file out = Done n h ->
  n = order_ h
  /\ prefix_ h = out
  /\ if (n =? 0) || (n <? U64.sub (vsize (counts_ h)) 1)
     then exists k c,
            k <> unigram
            /\ nth_error (counts_ h) (N.to_nat (U64.add n 1)) = Some c
            /\ created (effects h)
               = (written (effects h)
                  ++ [(k, {| prefix := out ++ "/" ++ Cpp.to_string (U64.add n 1);
                             num_keys := c |})])%list
     else created (effects h) = written (effects h).
Proof.
  rewrite build_from_arpa_unfold.
  set (lines := ifstream _ _).
  set (h0 := construct out [remove_all out; make_directory out]).
  pose proof (read_from_arpa_rule tidy (fun h' => orderly (effects h'))
                ltac:(intros h' [H' _]; exact H') count_tidy call_tidy
                lines h0 (construct_tidy out)) as Hr.
  pose proof (read_from_arpa_keeps_prefix lines h0) as Hp.
  destruct (read_from_arpa lines h0) as [[] h1|e h1|f h1]; try discriminate.
  cbn [ends final] in Hr, Hp.
  pose proof (finish_order_tidy h1 Hr) as Ht.
  pose proof (finish_order_keeps_counts h1) as (Hc & Hp' & Ho).
  destruct (finish_order h1) as [[] h2|e h2|f h2] eqn:Ef; try discriminate.
  cbn [ends final] in Ht, Hc, Hp', Ho.
  intros E. inversion E. subst n h2. clear E.
  pose proof (finish_order_active h1 h Hr Ef) as Ha.
  destruct Ht as [(_ & Hcw & _) _].
  unfold order. rewrite Hc, Ho.
  split; [reflexivity|]. split; [rewrite Hp'; exact Hp|].
  rewrite Hp in Ha. change (prefix_ h0) with out in Ha.
  destruct ((order_ h1 =? 0) || (order_ h1 <? U64.sub (vsize (counts_ h1)) 1)).
  - destruct Ha as (k & c & Hk & Hn & Hact). exists k, c.
    split; [exact Hk|]. split; [exact Hn|]. rewrite Hcw, Hact. reflexivity.
  - rewrite Hcw, Ha, app_nil_r. reflexivity.
Qed.

(** With at most two counts a handler at the unigrams stays there. *)
Lemma call_stays_at_unigrams (order : N) (ngram : string)
  (prob backoff : float) (h h' : ngram_handler) :
  (List.length (counts_ h) <= 2)%nat ->
  order_ h = 0 ->
  last_builder_ h = None ->
  call order ngram prob backoff h = Done tt h' ->
  (List.length (counts_ h') <= 2)%nat
  /\ order_ h' = 0 /\ last_builder_ h' = None.
Proof.
  intros Hlen Ho Hl E.
  pose proof (call_keeps_prefix order ngram prob backoff h) as (_ & Hc).
  rewrite E in Hc. cbn [final] in Hc. rewrite Hc.
  split; [exact Hlen|].
  destruct (N.eq_dec order 0) as [->|Hn0].
  - revert E. destruct h as [pre ord obs cnt ub ug mb lb eff].
    cbn in Ho, Hl. subst ord lb.
    unfold call, advance, observe, forward. exec.
    repeat (innermost; exec); intros E; try discriminate E;
      inversion E; split; reflexivity.
  - exfalso.
    destruct (N.eq_dec order 1) as [->|Hn1].
    + destruct h as [pre ord obs cnt ub ug mb lb eff].
      cbn in Ho, Hl, Hlen. subst ord lb.
      destruct cnt as [|c [|c' [|c'' cnt]]]; cbn in Hlen; try lia.
      * pose proof (call_undeclared 1 ngram prob backoff
                      {| prefix_ := pre; order_ := 0; observed_ := obs;
                         counts_ := []; unigram_builder_ := ub;
                         unigrams_ := ug; middle_builder_ := mb;
                         last_builder_ := None; effects := eff |}
                      ltac:(cbn; lia)) as Hnot.
        rewrite E in Hnot. discriminate.
      * pose proof (call_undeclared 1 ngram prob backoff
                      {| prefix_ := pre; order_ := 0; observed_ := obs;
                         counts_ := [c]; unigram_builder_ := ub;
                         unigrams_ := ug; middle_builder_ := mb;
                         last_builder_ := None; effects := eff |}
                      ltac:(cbn; lia)) as Hnot.
        rewrite E in Hnot. discriminate.
      * revert E.
        unfold call, advance, finish_order, observe, forward. exec. u64.
        change (U64.sub 2 1) with 1. exec.
        repeat (innermost; exec; u64; exec); intros E; discriminate E.
    + pose proof (call_undeclared order ngram prob backoff h) as Hnot.
      rewrite E in Hnot. cbn [is_done] in Hnot.
      assert (Hsize : vsize (counts_ h) <= order) by (unfold vsize; lia).
      specialize (Hnot Hsize). discriminate.
Qed.

Lemma count_keeps_unigram_state (n : N) (h : ngram_handler) :
  order_ h = 0 /\ last_builder_ h = None ->
  order_ (final (count n h)) = 0 /\ last_builder_ (final (count n h)) = None.
Proof.
  destruct (count_keeps_prefix n h) as (_ & Ho & Hl).
  rewrite Ho, Hl. auto.
Qed.

(** X13.  A file whose header declares at most two orders: when the
    build returns, it returns 0.  No gram of order 1 is ever accepted,
    since with two counts order 1 is [counts_.size() - 1] and its grams
    go to [last_builder_], which is made only when a middle order is
    finalized. *)
Theorem X13_with_at_most_two_declared_orders_a_build_returns_0
  (fs : file_system) (arpa_file out : string) (n : N) (h : ngram_handler) :
  (declared_orders (ifstream (fs_remove_all out fs) arpa_file) <= 2)%nat ->
  build_from_arpa fs arpa_file out = Done n h ->
  n = 0.
Proof.
  intros Hd. rewrite build_from_arpa_unfold.
  set (lines := ifstream _ _) in *.
  set (h0 := construct out [remove_all out; make_directory out]).
  unfold read_from_arpa, bind.
  destruct (read_header lines h0) as [rest h1|e h1|f h1] eqn:Eh;
    try discriminate.
  destruct (read_data rest 0 h1) as [[] h2|e h2|f h2] eqn:Ed;
    try discriminate.
  destruct (finish_order h2) as [[] h3|e h3|f h3] eqn:Ef; try discriminate.
  intros E. inversion E. subst.
  unfold order. rewrite (finish_order_keeps_order _ _ Ef).
  assert (H1 : (List.length (counts_ h1) <= 2)%nat
               /\ order_ h1 = 0 /\ last_builder_ h1 = None).
  { split.
    - rewrite (read_header_counts _ _ _ _ Eh). cbn. exact Hd.
    - exact (read_header_keeps
               (fun h' => order_ h' = 0 /\ last_builder_ h' = None)
               count_keeps_unigram_state lines h0 rest h1
               (conj eq_refl eq_refl) Eh). }
  assert (H2 : (List.length (counts_ h2) <= 2)%nat
               /\ order_ h2 = 0 /\ last_builder_ h2 = None).
  { apply (read_data_keeps
             (fun h' => (List.length (counts_ h') <= 2)%nat
                        /\ order_ h' = 0 /\ last_builder_ h' = None))
      with (lines := rest) (order := 0) (h := h1); [|exact H1|exact Ed].
    intros order ngram prob backoff h4 h5 (Hl4 & Ho4 & Hb4) Ec.
    exact (call_stays_at_unigrams order ngram prob backoff h4 h5
             Hl4 Ho4 Hb4 Ec). }
  apply H2.
Qed.

Lemma finish_order_without_counts (h : ngram_handler) :
  counts_ h = [] -> order_ h = 0 -> is_done (finish_order h) = false.
Proof.
  destruct h as [pre ord obs cnt ub ug mb lb eff]. cbn. intros -> ->.
  unfold finish_order. exec. u64. exec.
  repeat (innermost; exec); reflexivity.
Qed.

(** X14.  A file whose header declares no order (no line that begins
    with "ngram " before the line "\1-grams:"): no build of it ends
    normally.  The handler has no count and no builder, so every gram
    reads [counts_[order]] past the end, and the [finish_order] at the
    end of the build finds no unigram builder. *)
Theorem X14_without_a_declared_order_no_build_completes
  (fs : file_system) (arpa_file out : string) :
  declared_orders (ifstream (fs_remove_all out fs) arpa_file) = 0%nat ->
  is_done (build_from_arpa fs arpa_file out) = false.
Proof.
  intros Hd. rewrite build_from_arpa_unfold.
  set (lines := ifstream _ _) in *.
  set (h0 := construct out [remove_all out; make_directory out]).
  unfold read_from_arpa, bind.
  destruct (read_header lines h0) as [rest h1|e h1|f h1] eqn:Eh;
    try reflexivity.
  destruct (read_data rest 0 h1) as [[] h2|e h2|f h2] eqn:Ed;
    try reflexivity.
  assert (H1 : counts_ h1 = [] /\ order_ h1 = 0).
  { split.
    - apply length_zero_iff_nil.
      rewrite (read_header_counts _ _ _ _ Eh), Hd. reflexivity.
    - apply (read_header_keeps
               (fun h' => order_ h' = 0 /\ last_builder_ h' = None)
               count_keeps_unigram_state lines h0 rest h1
               (conj eq_refl eq_refl) Eh). }
  assert (H2 : counts_ h2 = [] /\ order_ h2 = 0).
  { apply (read_data_keeps (fun h' => counts_ h' = [] /\ order_ h' = 0))
      with (lines := rest) (order := 0) (h := h1); [|exact H1|exact Ed].
    intros order ngram prob backoff h4 h5 (Hc4 & _) Ec. exfalso.
    pose proof (call_undeclared order ngram prob backoff h4) as Hnot.
    rewrite Hc4, Ec in Hnot. cbn in Hnot.
    specialize (Hnot ltac:(lia)). discriminate. }
  destruct H2 as [Hc2 Ho2].
  pose proof (finish_order_without_counts h2 Hc2 Ho2) as Hf.
  destruct (finish_order h2) as [[] h3|e h3|f h3]; [discriminate|reflexivity..].
Qed.

Lemma below_itself (dir : string) : below dir dir = true.
Proof. unfold below. rewrite String.eqb_refl. reflexivity. Qed.

Lemma below_sub (dir x : string) : below dir (dir ++ String "/" x) = true.
Proof.
  unfold below. apply orb_true_iff. right.
  change (dir ++ String "/" x) with (dir ++ "/" ++ x).
  rewrite <- append_assoc. exact (find_is_0_append (dir ++ "/") x).
Qed.

Ltac confined_leaf :=
  unfold confined, held_below in *; cbn in *;
  repeat match goal with H : _ /\ _ |- _ => destruct H end;
  subst;
  repeat split; rewrite ?Forall_app; repeat split;
  repeat first [assumption | apply below_sub | apply below_itself
               | constructor; cbn [path_of prefix]].

Lemma count_confined (dir : string) (n : N) (h : ngram_handler) :
  confined dir h -> confined dir (final (count n h)).
Proof.
  intros Hc. rewrite count_unfold. cbn [final].
  destruct h as [pre ord obs cnt ub ug mb lb eff].
  destruct (vsize _ =? 1); [destruct ub|]; confined_leaf.
Qed.

Lemma finish_order_confined (dir : string) (h : ngram_handler) :
  confined dir h -> confined dir (final (finish_order h)).
Proof.
  intros Hc. destruct h as [pre ord obs cnt ub ug mb lb eff].
  unfold finish_order. exec.
  repeat (innermost; exec); confined_leaf.
Qed.

Lemma confined_frame (dir : string) (h h' : ngram_handler) :
  prefix_ h' = prefix_ h ->
  effects h' = effects h ->
  option_map options (unigram_builder_ h')
  = option_map options (unigram_builder_ h) ->
  option_map options (middle_builder_ h')
  = option_map options (middle_builder_ h) ->
  option_map options (last_builder_ h')
  = option_map options (last_builder_ h) ->
  confined dir h -> confined dir h'.
Proof.
  unfold confined. intros -> -> -> -> ->. auto.
Qed.

Lemma call_confined (dir : string) (order : N) (ngram : string)
  (prob backoff : float) (h : ngram_handler) :
  confined dir h -> confined dir (final (call order ngram prob backoff h)).
Proof.
  intros Hc. rewrite call_unfold.
  assert (Ha : confined dir (final (advance order h))).
  { unfold advance. exec. destruct (order_ h <? order); [|exact Hc].
    pose proof (finish_order_confined dir h Hc) as Hf. exec.
    destruct (finish_order h) as [[] h1|e h1|f h1]; exact Hf. }
  destruct (advance order h) as [[] h1|e h1|f h1]; cbn [final] in *;
    try exact Ha.
  assert (Hob : confined dir (final (observe order h1))).
  { pose proof (observe_frame order h1) as Hfr. cbv zeta in Hfr.
    destruct Hfr as (Hp & _ & _ & _ & He & Hu & Hm & Hl).
    revert Ha. apply confined_frame; congruence. }
  destruct (observe order h1) as [[] h2|e h2|f h2]; cbn [final] in *;
    try exact Hob.
  pose proof (forward_frame order ngram prob backoff h2) as Hfr.
  cbv zeta in Hfr.
  destruct Hfr as (Hp & _ & _ & _ & _ & He & _ & _ & _ & Hu & Hm & Hl).
  revert Hob. apply confined_frame; assumption.
Qed.

(** X15.  A build works at or below its output prefix: every path it
    gives to [filesystem::remove_all] and [filesystem::make_directory],
    every [options.prefix] of a builder it constructs, writes or
    destroys, and the path of the map it opens is the prefix itself or
    begins with the prefix and a "/", however the build ends. *)
Theorem X15_a_build_names_no_path_outside_its_prefix
  (fs : file_system) (arpa_file out : string) (e : effect) :
  In e (effects (final (build_from_arpa fs arpa_file out))) ->
  below out (path_of e) = true.
Proof.
  assert (Hall : confined out (final (build_from_arpa fs arpa_file out))).
  { rewrite build_from_arpa_unfold.
    set (lines := ifstream _ _).
    set (h0 := construct out [remove_all out; make_directory out]).
    assert (H0 : confined out h0) by (unfold h0, construct; confined_leaf).
    assert (H1 : confined out (final (read_from_arpa lines h0))).
    { apply (ends_final (confined out)).
      apply read_from_arpa_rule; auto.
      - intros n h Hh. apply ends_final. exact (count_confined out n h Hh).
      - intros order ngram prob backoff h Hh. apply ends_final.
        exact (call_confined out order ngram prob backoff h Hh). }
    destruct (read_from_arpa lines h0) as [[] h1|x h1|f h1]; cbn [final] in *;
      try exact H1.
    pose proof (finish_order_confined out h1 H1) as H2.
    destruct (finish_order h1) as [[] h2|x h2|f h2]; exact H2. }
  destruct Hall as (_ & Hall & _).
  intros Hin. rewrite Forall_forall in Hall. exact (Hall e Hin).
Qed.

Lemma count_in_header (dir : string) (world : list effect) (n : N)
  (h : ngram_handler) :
  in_header dir world h -> in_header dir world (final (count n h)).
Proof.
  intros (Hp & Ho & Hobs & Hu & Hm & Hl & Hc).
  rewrite count_unfold. cbn [final].
  destruct h as [pre ord obs cnt ub ug mb lb eff]. cbn in *. subst.
  destruct cnt as [|first cnt].
  - destruct Hc as [-> ->]. cbn. unfold in_header. cbn.
    rewrite ?app_nil_r. repeat split.
  - destruct Hc as [-> ->].
    assert (Hmore : (vsize ((first :: cnt) ++ [n]) =? 1) = false).
    { apply N.eqb_neq. unfold vsize. cbn [app List.length].
      rewrite length_app. cbn [List.length]. lia. }
    rewrite Hmore. unfold in_header. cbn. repeat split.
Qed.

(** X16.  Of the counts of the header only the first makes a builder:
    when the first loop has ended normally the handler is still at order
    0 and holds no middle or last builder and no vocabulary; if counts
    were declared it holds the unigram builder, made in [prefix/0/] with
    as many keys as the first count, and the directory and this builder
    are all that was made. *)
Theorem X16_the_header_makes_only_the_unigram_builder
  (lines rest : list string) (out : string) (world : list effect)
  (h : ngram_handler) :
  read_header lines (construct out world) = Done rest h ->
  List.length (counts_ h) = declared_orders lines
  /\ order_ h = 0
  /\ unigrams_ h = None /\ middle_builder_ h = None /\ last_builder_ h = None
  /\ match counts_ h with
     | [] => unigram_builder_ h = None /\ effects h = world
     | first :: _ =>
         let o := {| prefix := out ++ "/0/"; num_keys := first |} in
         unigram_builder_ h = Some (make_builder o)
         /\ effects h
            = (world ++ [make_directory (out ++ "/0/");
                         builder_created unigram o])%list
     end.
Proof.
  intros E.
  split; [rewrite (read_header_counts _ _ _ _ E); reflexivity|].
  assert (Hin : in_header out world h).
  { apply (read_header_keeps (in_header out world)
             (count_in_header out world) lines (construct out world) rest h);
      [|exact E].
    unfold in_header, construct. cbn. repeat split. }
  destruct Hin as (_ & Ho & _ & Hu & Hm & Hl & Hc). auto.
Qed.

End PipelineFacts.

(** ** The tokens of a gram text *)

Section TokenFacts.

Context {FM : FloatModel} {P : Platform}.

Lemma for_each_nonempty (toks : list string) (ids : list N)
  (h : ngram_handler) :
  for_each toks resolve ids h
  = for_each (filter (fun t => negb (t =? "")%string) toks) resolve ids h.
Proof.
  revert ids h. induction toks as [|t toks IH]; intros ids h; [reflexivity|].
  cbn [filter for_each].
  destruct (t =? "")%string eqn:Et; cbn [negb].
  - unfold bind at 1. unfold resolve at 1. rewrite Et. cbn [negb].
    unfold ret at 1. apply IH.
  - cbn [for_each]. unfold bind.
    destruct (resolve t ids h); [apply IH|reflexivity..].
Qed.

(** X17.  Past order 0 a gram text counts only through its tokens: two
    texts with the same non-empty pieces between spaces (the same words,
    with other blanks before, between or after them) are handled by
    [operator()] in the same way, with the same outcome and the same
    ids in the builder. *)
Theorem X17_past_order_0_only_the_tokens_of_a_gram_count
  (order : N) (ngram ngram' : string) (prob backoff : float)
  (h : ngram_handler) :
  order_ h <> 0 ->
  tokens ngram = tokens ngram' ->
  call order ngram prob backoff h = call order ngram' prob backoff h.
Proof.
  intros Hnz Htok. rewrite !call_unfold.
  pose proof (advance_keeps_counts order h) as (_ & _ & Ha).
  destruct (advance order h) as [[] h1|e h1|f h1]; [|reflexivity..].
  cbn [final] in Ha.
  pose proof (observe_frame order h1) as Hob. cbv zeta in Hob.
  destruct Hob as (_ & Hob & _).
  destruct (observe order h1) as [[] h2|e h2|f h2]; [|reflexivity..].
  cbn [final] in Hob.
  assert (Hnz2 : (order_ h2 =? 0) = false) by (apply N.eqb_neq; lia).
  unfold forward, get, bind, for_each_token. rewrite Hnz2.
  destruct (assert (_ || _) _ h2) as [[] s1|e s1|f s1]; [|reflexivity..].
  destruct (assert _ _ s1) as [[] s2|e s2|f s2]; [|reflexivity..].
  rewrite (for_each_nonempty (pieces _ _ ngram)).
  rewrite (for_each_nonempty (pieces _ _ ngram')).
  fold (tokens ngram). fold (tokens ngram'). rewrite Htok. reflexivity.
Qed.

End TokenFacts.

(** ** Runs on the files of the scenario *)

Section Runs.

#[local] Existing Instance Scenario.floats.
#[local] Existing Instance Scenario.checked.

Lemma C8_witness :
  let r := {| declared_counts := [3; 2]; tuples := [] |} in
  data_line (Scenario.line3 "-1.0" "a" "-0.3") 0 r
  = Done 0 {| declared_counts := [3; 2];
              tuples := [(0, "a", Qmake (-1) 1, Qmake (-3) 10)] |}
  /\ data_line (Scenario.line2 "-1.0" "a") 0 r
     = Done 0 {| declared_counts := [3; 2];
                 tuples := [(0, "a", Qmake (-1) 1, Qmake 0 1)] |}.
Proof.
  pose proof (@C8_reader_emits_fields_of_data_line _ _ "-1.0" "a" "-0.3" 0
                {| declared_counts := [3; 2]; tuples := [] |}
                (Qmake (-1) 1) (Qmake (-3) 10)
                ltac:(reflexivity) ltac:(reflexivity) ltac:(reflexivity)
                ltac:(reflexivity) ltac:(reflexivity) ltac:(reflexivity))
    as H.
  vm_compute in H. vm_compute. exact H.
Defined.

Lemma C3_witness :
  let h := Scenario.handler_after false 7 Scenario.overfull_arpa in
  call 0 "c" (Qmake (-3) 1) (Qmake (-1) 5) h
  = Thrown (runtime_error "too many 1-grams") (set_observed_ 3 h).
Proof.
  pose proof (@C3_count_is_enforced_before_forwarding _ _
                (Scenario.handler_after false 7 Scenario.overfull_arpa)
                (Scenario.handler_after false 7 Scenario.overfull_arpa)
                0 2 "c" (Qmake (-3) 1) (Qmake (-1) 5)
                ltac:(vm_compute; congruence) ltac:(vm_compute; reflexivity)
                ltac:(vm_compute; reflexivity)) as H.
  cbv zeta in H. destruct H as (_ & H & _).
  specialize (H ltac:(vm_compute; reflexivity)).
  vm_compute in H. vm_compute. exact H.
Defined.

Lemma C4_witness :
  let h := Scenario.handler_after false 9 Scenario.trigram_arpa in
  exists token,
    In token (tokens "a c")
    /\ index Scenario.vocabulary token = None
    /\ call 1 "a c" (Qmake (-1) 2) (Qmake (-1) 5) h
       = Thrown (runtime_error ("ngram contains unknown unigram " ++ token))
           (set_observed_ (U64.add (observed_ (final (advance 1 h))) 1)
              (final (advance 1 h))).
Proof.
  exact (@C4_unknown_unigram_stops_the_gram _ _
           (Scenario.handler_after false 9 Scenario.trigram_arpa)
           (final (advance 1 (Scenario.handler_after false 9
                                Scenario.trigram_arpa)))
           1 2 "a c" (Qmake (-1) 2) (Qmake (-1) 5)
           Scenario.vocabulary "c"
           ltac:(vm_compute; congruence) ltac:(vm_compute; congruence)
           ltac:(vm_compute; reflexivity) ltac:(vm_compute; reflexivity)
           ltac:(vm_compute; congruence) ltac:(vm_compute; reflexivity)
           ltac:(vm_compute; reflexivity)
           ltac:(right; left; reflexivity) ltac:(vm_compute; reflexivity)).
Defined.

Lemma C5_witness :
  let after_bigrams := Scenario.handler_after false 13 Scenario.trigram_arpa in
  let after_unigrams := Scenario.handler_after false 9 Scenario.trigram_arpa in
  call 2 "a b a" (Qmake (-9) 10) (Qmake (-1) 2) after_bigrams
  = Done tt
      (set_last_builder_
         (Some (insert (make_builder {| prefix := "out/2"; num_keys := 1 |})
                  [0; 1; 0] (Qmake (-9) 10)))
         (set_observed_ 1 (final (advance 2 after_bigrams))))
  /\ call 1 "a b" (Qmake (-1) 2) (Qmake (-1) 5) after_unigrams
     = Done tt
         (set_middle_builder_
            (Some (insert (make_builder {| prefix := "out/1"; num_keys := 2 |})
                     [0; 1]
                     (@Build_prob_backoff _ (Qmake (-1) 2) (Qmake (-1) 5))))
            (set_observed_ 1 (final (advance 1 after_unigrams)))).
Proof.
  pose proof (@C5_value_forwarded_by_order _ _
                (Scenario.handler_after false 13 Scenario.trigram_arpa)
                (final (advance 2 (Scenario.handler_after false 13
                                     Scenario.trigram_arpa)))
                2 1 "a b a" (Qmake (-9) 10) (Qmake (-1) 2)
                ltac:(vm_compute; congruence) ltac:(vm_compute; reflexivity)
                ltac:(vm_compute; reflexivity) ltac:(vm_compute; congruence))
    as Hlast.
  pose proof (@C5_value_forwarded_by_order _ _
                (Scenario.handler_after false 9 Scenario.trigram_arpa)
                (final (advance 1 (Scenario.handler_after false 9
                                     Scenario.trigram_arpa)))
                1 2 "a b" (Qmake (-1) 2) (Qmake (-1) 5)
                ltac:(vm_compute; congruence) ltac:(vm_compute; reflexivity)
                ltac:(vm_compute; reflexivity) ltac:(vm_compute; congruence))
    as Hmiddle.
  cbv zeta in Hlast, Hmiddle.
  destruct Hlast as [_ Hlast]. destruct Hmiddle as [_ Hmiddle].
  specialize (Hlast ltac:(discriminate) Scenario.vocabulary [0; 1; 0]
                ltac:(vm_compute; reflexivity) ltac:(vm_compute; reflexivity)
                ltac:(vm_compute; reflexivity)).
  specialize (Hmiddle ltac:(discriminate) Scenario.vocabulary [0; 1]
                ltac:(vm_compute; reflexivity) ltac:(vm_compute; reflexivity)
                ltac:(vm_compute; reflexivity)).
  destruct Hlast as [_ Hlast]. destruct Hmiddle as [Hmiddle _].
  specialize (Hlast ltac:(vm_compute; reflexivity)
                (make_builder {| prefix := "out/2"; num_keys := 1 |})
                ltac:(vm_compute; reflexivity)).
  specialize (Hmiddle ltac:(vm_compute; congruence)
                (make_builder {| prefix := "out/1"; num_keys := 2 |})
                ltac:(vm_compute; reflexivity)).
  vm_compute in Hlast, Hmiddle. vm_compute. exact (conj Hlast Hmiddle).
Defined.

Lemma C5_counterexample :
  let h := Scenario.handler_after false 4 Scenario.unigram_arpa in
  counts_ h = [2]
  /\ U64.sub (vsize (counts_ h)) 1 = 0
  /\ exists h',
       call 0 "a" (Qmake (-1) 1) (Qmake (-3) 10) h = Done tt h'
       /\ option_map inserted (unigram_builder_ h')
          = Some [("a", @Build_prob_backoff _ (Qmake (-1) 1) (Qmake (-3) 10))]
       /\ middle_builder_ h' = None
       /\ last_builder_ h' = None.
Proof.
  intros h. split; [reflexivity|]. split; [reflexivity|].
  exists (final (@call Scenario.floats Scenario.checked 0 "a"
                   (Qmake (-1) 1) (Qmake (-3) 10) h)).
  repeat apply conj; vm_compute; reflexivity.
Qed.

(** C1.  The order-0 transition of the two-order model of the scenario.
    When the three unigrams are read the handler is at order 0 with the
    counts [3; 2], so that order 1 is the last declared order.
    [finish_order] then writes and destroys the unigram builder, opens
    the map it wrote as the vocabulary and makes the builder of order 1
    with [counts_[1] = 2] keys; that builder is of the middle kind, and
    no builder of the last kind exists. *)
Theorem C1_order0_successor_is_middle_in_two_order_model (ndebug : bool) :
  let h := Scenario.handler_after ndebug 8 Scenario.bigram_arpa in
  let h' := final (@finish_order _ (Scenario.platform ndebug) h) in
  order_ h = 0
  /\ counts_ h = [3; 2]
  /\ U64.sub (vsize (counts_ h)) 1 = 1
  /\ @finish_order _ (Scenario.platform ndebug) h = Done tt h'
  /\ unigram_builder_ h' = None
  /\ unigrams_ h' = Some Scenario.vocabulary
  /\ middle_builder_ h'
     = Some (make_builder {| prefix := "out/1"; num_keys := 2 |})
  /\ last_builder_ h' = None.
Proof.
  destruct ndebug; intros; repeat apply conj; vm_compute; reflexivity.
Qed.

(** C2.  The build of the two-order file of the scenario.  It does not
    complete: the first bigram, "a b", passes the count and the
    vocabulary, and is then given to the last builder, which was never
    made; the build ends in the dereference of the null [last_builder_],
    with the unigram map written, the builder of order 1 (of the middle
    kind) empty and unwritten, and nothing under [out/1]. *)
Theorem C2_two_order_build_faults_at_first_bigram (ndebug : bool) :
  let h := final (Scenario.run ndebug Scenario.bigram_arpa) in
  Scenario.run ndebug Scenario.bigram_arpa
  = Faulted (null_dereference "last_builder_") h
  /\ order_ h = 1
  /\ observed_ h = 1
  /\ unigrams_ h = Some Scenario.vocabulary
  /\ middle_builder_ h
     = Some (make_builder {| prefix := "out/1"; num_keys := 2 |})
  /\ last_builder_ h = None
  /\ effects h
     = [ remove_all "out"; make_directory "out"; make_directory "out/0/";
         builder_created unigram {| prefix := "out/0/"; num_keys := 3 |};
         builder_written unigram {| prefix := "out/0/"; num_keys := 3 |}
           (unigram_table Scenario.vocabulary);
         builder_destroyed unigram {| prefix := "out/0/"; num_keys := 3 |};
         map_opened "out/0"; make_directory "out/1";
         builder_created middle {| prefix := "out/1"; num_keys := 2 |} ].
Proof.
  destruct ndebug; intros; repeat apply conj; vm_compute; reflexivity.
Qed.


Lemma C7_witness :
  let h := Scenario.handler_after false 5 Scenario.overfull_arpa in
  let h' := final (Scenario.run false Scenario.overfull_arpa) in
  (call 0 "a" (Qmake (-1) 1) (Qmake (-3) 10) ;;
   call 0 "b" (Qmake (-2) 1) (Qmake (-1) 10) ;;
   call 0 "c" (Qmake (-3) 1) (Qmake (-1) 5))%cpp h
  = Thrown (runtime_error "too many 1-grams") h'
  /\ Scenario.run false Scenario.overfull_arpa
     = Thrown (runtime_error "too many 1-grams") h'
  /\ observed_ h' = 3
  /\ option_map (fun b => List.length (inserted b)) (unigram_builder_ h')
     = Some 2%nat.
Proof.
  pose proof (@C7_third_unigram_of_two_declared_is_refused _ _
                (Scenario.handler_after false 5 Scenario.overfull_arpa)
                (make_builder {| prefix := "out/0/"; num_keys := 2 |})
                "a" "b" "c"
                (Qmake (-1) 1) (Qmake (-3) 10) (Qmake (-2) 1) (Qmake (-1) 10)
                (Qmake (-3) 1) (Qmake (-1) 5)
                ltac:(reflexivity) ltac:(reflexivity) ltac:(reflexivity)
                ltac:(reflexivity)) as [_ H].
  intros h h'. split.
  - vm_compute in H. vm_compute. exact H.
  - repeat apply conj; vm_compute; reflexivity.
Defined.

Lemma C7_counterexample :
  ~ exists h,
      Scenario.run false Scenario.overfull_arpa
      = Thrown (runtime_error "too many 1-grams") h
      /\ observed_ h = 2 + 2.
Proof.
  intros [h [E Ho]].
  vm_compute in E. inversion E; subst. discriminate Ho.
Qed.

Lemma C10_witness :
  let h := final (Scenario.run false Scenario.unigram_arpa) in
  is_done (Scenario.run false Scenario.unigram_arpa) = false
  /\ Scenario.run false Scenario.unigram_arpa
     = Faulted (vector_out_of_bounds 1) h
  /\ counts_ h = [2].
Proof.
  pose proof (proj1 (proj2 (@C10_order0_successor_reads_counts_1 _ _)
                       (Scenario.disk Scenario.unigram_arpa) "lm.arpa" "out"
                       ltac:(reflexivity))) as H.
  intros h. split; [exact H|].
  split; vm_compute; reflexivity.
Defined.


Lemma X1_witness :
  let r := {| declared_counts := []; tuples := [] |} in
  header_line "ngram 1=3" r
  = Done false {| declared_counts := [3]; tuples := [] |}.
Proof.
  pose proof (X1_header_line_gives_the_count_after_the_equals_sign "1" 3
                {| declared_counts := []; tuples := [] |}
                ltac:(reflexivity) ltac:(vm_compute; reflexivity)
                ltac:(vm_compute; reflexivity)) as H.
  vm_compute in H. vm_compute. exact H.
Defined.

Lemma X2_witness :
  let r := {| declared_counts := []; tuples := [] |} in
  header_line "ngram 1 3" r = Thrown (invalid_argument "stoul") r.
Proof.
  exact (X2_header_line_without_equals_sign_is_an_invalid_argument "1 3"
           {| declared_counts := []; tuples := [] |}
           ltac:(reflexivity) ltac:(vm_compute; reflexivity)).
Defined.

Lemma X3_witness :
  let r := {| declared_counts := []; tuples := [] |} in
  let lines := ["\data\"; "ngram 1=2"; ""; Scenario.line2 "-1.0" "a"] in
  read_from_arpa lines r = Done tt {| declared_counts := [2]; tuples := [] |}.
Proof.
  pose proof (X3_without_the_unigram_marker_no_gram_is_read
                ["\data\"; "ngram 1=2"; ""; Scenario.line2 "-1.0" "a"]
                {| declared_counts := []; tuples := [] |}
                ltac:(intros l [<-|[<-|[<-|[<-|[]]]]]; reflexivity)) as H.
  vm_compute in H. vm_compute. exact H.
Defined.

Lemma X5_witness :
  let r := {| declared_counts := [1]; tuples := [] |} in
  data_line "-1.0 a" 0 r
  = Done 0 {| declared_counts := [1];
              tuples := [(0, "-1.0 a", Qmake (-1) 1, Qmake 0 1)] |}.
Proof.
  pose proof (X5_data_line_without_a_tab_is_its_own_gram_text "-1.0 a" 0
                {| declared_counts := [1]; tuples := [] |}
                ltac:(reflexivity) ltac:(discriminate) ltac:(reflexivity)
                ltac:(vm_compute; reflexivity)) as H.
  vm_compute in H. vm_compute. exact H.
Defined.

Lemma X6_witness :
  map order_of (emitted Scenario.trigram_arpa) = [0; 0; 0; 1; 1; 2]
  /\ Sorted N.le (map order_of (emitted Scenario.trigram_arpa)).
Proof.
  split; [vm_compute; reflexivity|].
  exact (X6_the_reader_gives_orders_that_never_go_down Scenario.trigram_arpa
           ltac:(vm_compute; reflexivity)).
Defined.

Lemma X7_witness :
  let h := Scenario.handler_after false 9 Scenario.bigram_arpa in
  let h1 := final (advance 2 h) in
  counts_ h = [3; 2]
  /\ advance 2 h = Done tt h1
  /\ call 2 "a b a" (Qmake (-1) 2) (Qmake 0 1) h
     = Faulted (vector_out_of_bounds 2) (set_observed_ 1 h1).
Proof.
  intros h h1.
  assert (Ha : advance 2 h = Done tt h1) by (vm_compute; reflexivity).
  split; [vm_compute; reflexivity|]. split; [exact Ha|].
  destruct (@X7_gram_of_an_undeclared_order_indexes_counts_past_the_end
              Scenario.floats Scenario.checked 2 "a b a" (Qmake (-1) 2) (Qmake 0 1) h h1
              ltac:(vm_compute; discriminate) Ha) as [_ H].
  vm_compute in H. vm_compute. exact H.
Defined.

Lemma X8_witness :
  let h := Scenario.handler_after false 5 Scenario.overfull_arpa in
  unigram_calls [("a", Qmake (-1) 1, Qmake (-3) 10);
                 ("b", Qmake (-2) 1, Qmake (-1) 10)] h
  = Done tt (Scenario.handler_after false 7 Scenario.overfull_arpa).
Proof.
  pose proof (X8_unigrams_within_the_count_are_kept_in_order
                [("a", Qmake (-1) 1, Qmake (-3) 10);
                 ("b", Qmake (-2) 1, Qmake (-1) 10)]
                (Scenario.handler_after false 5 Scenario.overfull_arpa)
                (make_builder {| prefix := "out/0/"; num_keys := 2 |}) 2
                ltac:(reflexivity) ltac:(reflexivity) ltac:(reflexivity)
                ltac:(vm_compute; reflexivity)
                ltac:(vm_compute; discriminate)) as H.
  vm_compute in H. vm_compute. exact H.
Defined.

Lemma X10_witness :
  let h := Scenario.handler_after false 9 Scenario.trigram_arpa in
  let h' := final (call 1 "a b" (Qmake (-1) 2) (Qmake (-1) 5) h) in
  call 1 "a b" (Qmake (-1) 2) (Qmake (-1) 5) h = Done tt h'
  /\ order_ h' = 1
  /\ tokens "a b" = ["a"; "b"]
  /\ N.of_nat (List.length (tokens "a b")) = U64.add 1 1.
Proof.
  intros h h'.
  assert (E : call 1 "a b" (Qmake (-1) 2) (Qmake (-1) 5) h = Done tt h')
    by (vm_compute; reflexivity).
  split; [exact E|].
  split; [vm_compute; reflexivity|].
  split; [vm_compute; reflexivity|].
  exact (X10_with_assertions_a_higher_gram_has_order_plus_one_tokens
           1 "a b" (Qmake (-1) 2) (Qmake (-1) 5) h h'
           ltac:(reflexivity) E ltac:(vm_compute; discriminate)).
Defined.

Lemma X11_witness :
  let h := Scenario.handler_after false 13 Scenario.trigram_arpa in
  exists h',
    finish_order h = Done tt h'
    /\ order_ h' = 1
    /\ middle_builder_ h' = None
    /\ last_builder_ h'
       = Some (make_builder {| prefix := "out/2"; num_keys := 1 |}).
Proof.
  intros h.
  destruct (X11_finalizing_a_middle_order_makes_the_next_builder h
              {| options := {| prefix := "out/1"; num_keys := 2 |};
                 inserted :=
                   [([0; 1], @Build_prob_backoff Scenario.floats
                               (Qmake (-1) 2) (Qmake (-1) 5));
                    ([1; 0], @Build_prob_backoff Scenario.floats
                               (Qmake (-7) 10) (Qmake (-2) 5))] |}
              1
              ltac:(vm_compute; discriminate) ltac:(vm_compute; reflexivity)
              ltac:(vm_compute; reflexivity) ltac:(vm_compute; reflexivity)
              ltac:(vm_compute; reflexivity))
    as (h' & E & Ho & _ & _ & _ & Hb).
  exists h'. split; [exact E|].
  split; [rewrite Ho; vm_compute; reflexivity|].
  vm_compute in Hb. destruct Hb as (Hm & Hl & _).
  split; [exact Hm|exact Hl].
Defined.

Lemma X12_witness :
  let o := Scenario.run false (firstn 13 Scenario.trigram_arpa) in
  let t := effects (final o) in
  o = Done 1 (final o)
  /\ exists k c,
       k <> unigram
       /\ nth_error [3; 2; 1] 2 = Some c
       /\ created t
          = (written t ++ [(k, {| prefix := "out/2"; num_keys := c |})])%list.
Proof.
  pose proof (@X12_a_build_that_stops_early_leaves_the_next_builder_unwritten
                Scenario.floats (Scenario.platform false)
                (Scenario.disk (firstn 13 Scenario.trigram_arpa)) "lm.arpa"
                "out") as H.
  unfold Scenario.run. cbv zeta.
  set (o := build_from_arpa _ _ _) in *.
  assert (E : o = Done 1 (final o)) by (vm_compute; reflexivity).
  split; [exact E|].
  specialize (H 1 (final o) E). destruct H as (_ & _ & H).
  vm_compute in H. vm_compute. exact H.
Defined.

Lemma X13_witness :
  let o := Scenario.run false (firstn 9 Scenario.bigram_arpa) in
  o = Done (order_ (final o)) (final o) /\ order_ (final o) = 0.
Proof.
  pose proof (@X13_with_at_most_two_declared_orders_a_build_returns_0
                Scenario.floats (Scenario.platform false)
                (Scenario.disk (firstn 9 Scenario.bigram_arpa)) "lm.arpa"
                "out") as H.
  unfold Scenario.run. cbv zeta.
  set (o := build_from_arpa _ _ _) in *.
  assert (E : o = Done (order_ (final o)) (final o))
    by (vm_compute; reflexivity).
  split; [exact E|].
  exact (H (order_ (final o)) (final o) ltac:(vm_compute; lia) E).
Defined.

Lemma X14_witness :
  is_done (Scenario.run false
             ["\data\"; ""; "\1-grams:"; Scenario.line3 "-1.0" "a" "-0.3"])
  = false.
Proof.
  unfold Scenario.run.
  exact (@X14_without_a_declared_order_no_build_completes
           Scenario.floats (Scenario.platform false)
           (Scenario.disk
              ["\data\"; ""; "\1-grams:"; Scenario.line3 "-1.0" "a" "-0.3"])
           "lm.arpa" "out" ltac:(vm_compute; reflexivity)).
Defined.

Lemma X15_witness :
  let e := builder_created middle {| prefix := "out/1"; num_keys := 2 |} in
  In e (effects (final (Scenario.run false Scenario.bigram_arpa)))
  /\ below "out" (path_of e) = true.
Proof.
  pose proof (@X15_a_build_names_no_path_outside_its_prefix
                Scenario.floats (Scenario.platform false)
                (Scenario.disk Scenario.bigram_arpa) "lm.arpa" "out") as H.
  unfold Scenario.run. cbv zeta.
  set (o := build_from_arpa _ _ _) in *.
  set (e := builder_created middle {| prefix := "out/1"; num_keys := 2 |}).
  assert (Hin : In e (effects (final o)))
    by (vm_compute; do 8 right; left; reflexivity).
  split; [exact Hin|exact (H e Hin)].
Defined.

Lemma X16_witness :
  let h := final (read_header Scenario.bigram_arpa (construct "out" [])) in
  counts_ h = [3; 2]
  /\ unigram_builder_ h
     = Some (make_builder {| prefix := "out/0/"; num_keys := 3 |})
  /\ middle_builder_ h = None
  /\ effects h
     = [make_directory "out/0/";
        builder_created unigram {| prefix := "out/0/"; num_keys := 3 |}].
Proof.
  intros h.
  assert (E : read_header Scenario.bigram_arpa (construct "out" [])
              = Done (skipn 5 Scenario.bigram_arpa) h)
    by (vm_compute; reflexivity).
  destruct (X16_the_header_makes_only_the_unigram_builder
              Scenario.bigram_arpa (skipn 5 Scenario.bigram_arpa) "out" [] h E)
    as (_ & _ & _ & Hm & _ & H).
  assert (Hc : counts_ h = [3; 2]) by (vm_compute; reflexivity).
  rewrite Hc in H. cbv zeta in H. destruct H as [Hu He].
  split; [exact Hc|]. split; [exact Hu|]. split; [exact Hm|exact He].
Defined.

Lemma X17_witness :
  let h := Scenario.handler_after false 12 Scenario.trigram_arpa in
  order_ h = 1
  /\ call 1 " a  b " (Qmake (-1) 2) (Qmake (-1) 5) h
     = call 1 "a b" (Qmake (-1) 2) (Qmake (-1) 5) h.
Proof.
  split; [vm_compute; reflexivity|].
  exact (X17_past_order_0_only_the_tokens_of_a_gram_count 1 " a  b " "a b"
           (Qmake (-1) 2) (Qmake (-1) 5)
           (Scenario.handler_after false 12 Scenario.trigram_arpa)
           ltac:(vm_compute; discriminate) ltac:(vm_compute; reflexivity)).
Defined.

End Runs.
